(** * flowhouse: the frontend's query translation, checked against its specification

    A shallow embedding of [pkg/frontend] (field resolution, SQL assembly, the
    query and dictionary-value handlers) together with the parts of Go's
    standard library the code calls ([strings], [time], [sort]).  *)

From Stdlib Require Import ZArith Ascii String List Lia DecimalString.
From stdpp Require Import base option list gmap strings sorting.

Local Open Scope string_scope.
Local Open Scope Z_scope.

(** ** Go's [strings] package, as far as the frontend uses it *)

Module Strings.

(** [strings.HasPrefix(s, prefix)]. *)
Fixpoint HasPrefix (s prefix : string) {struct prefix} : bool :=
  match prefix with
  | "" => true
  | String p prefix' =>
      match s with
      | "" => false
      | String c s' => if decide (c = p) then HasPrefix s' prefix' else false
      end
  end.

(** The slice expressions [s[:n]] and [s[n:]] (within bounds). *)
Fixpoint take (n : nat) (s : string) : string :=
  match n, s with
  | S n', String c s' => String c (take n' s')
  | _, _ => ""
  end.

Fixpoint drop (n : nat) (s : string) : string :=
  match n, s with
  | S n', String _ s' => drop n' s'
  | _, _ => s
  end.

(** [strings.Index(s, substr)]: the byte offset of the first occurrence;
    Go's [-1] is [None]. *)
Fixpoint Index (s substr : string) : option nat :=
  if HasPrefix s substr then Some 0%nat
  else match s with
       | "" => None
       | String _ s' => S <$> Index s' substr
       end.

(** [strings.Contains(s, substr)] is [Index(s, substr) >= 0]. *)
Definition Contains (s substr : string) : bool :=
  bool_decide (is_Some (Index s substr)).

(** The loop of [genSplit]: cut at the next occurrence of [sep] until there
    is none.  Go bounds the loop by [Count(s, sep)]; here the bound is the
    length of [s], which is never smaller when [sep] is not empty
    ([genSplit_fuel] below).  The frontend only splits on ["__"] and ["/"];
    the empty separator, for which Go explodes the string, is not modelled. *)
Fixpoint genSplit (fuel : nat) (s sep : string) : list string :=
  match fuel with
  | O => [s]
  | S fuel' =>
      match Index s sep with
      | None => [s]
      | Some m => take m s :: genSplit fuel' (drop (m + String.length sep) s) sep
      end
  end.

(** [strings.Split(s, sep)]. *)
Definition Split (s sep : string) : list string :=
  genSplit (String.length s) s sep.

(** [strings.Join(elems, sep)]. *)
Fixpoint Join (elems : list string) (sep : string) : string :=
  match elems with
  | [] => ""
  | [e] => e
  | e :: elems' => e +:+ sep +:+ Join elems' sep
  end.

End Strings.

(** ** Field names *)

(** [parseFieldName]: [parts[0]] and, when there are at least two parts,
    [parts[1]].  [Split] never returns an empty slice ([Split_not_nil]), so
    the first case is not reachable. *)
Definition parseFieldName (name : string) : string * string :=
  match Strings.Split name "__" with
  | [] => ("", "")
  | [p0] => (p0, "")
  | p0 :: p1 :: _ => (p0, p1)
  end.

(** [resolveVirtualField]. *)
Definition resolveVirtualField (f : string) : string :=
  if decide (f = "src_ip_pfx") then
    "concat(IPv6NumToString(src_ip_pfx_addr), '/', toString(src_ip_pfx_len))"
  else if decide (f = "dst_ip_pfx") then
    "concat(IPv6NumToString(dst_ip_pfx_addr), '/', toString(dst_ip_pfx_len))"
  else f.

(** ** Errors and results *)

(** The error values the frontend builds.  [fmt.Errorf] carries its rendered
    text; [errors.Wrap] keeps the cause and adds a message; the [%q] message
    of [timeFieldToTimestamp] keeps the quoted operand as it is. *)
Inductive error : Type :=
  | Errorf (msg : string)
  | Wrap (cause : error) (msg : string)
  | WrapUnableToParse (cause : error) (v : string)
  | ParseError (value : string)
  | ExternalError (msg : string).

(** A Go call that returns [(T, error)], or panics. *)
Inductive outcome (A : Type) : Type :=
  | Ok (a : A)
  | Err (e : error)
  | Panic.
Arguments Ok {A} a.
Arguments Err {A} e.
Arguments Panic {A}.

(** ** Go's [time] package: [time.Parse(time.RFC3339, value)] and [Unix] *)

Module Time.
Import Strings.

Definition isDigit (c : ascii) : bool :=
  (48 <=? N_of_ascii c)%N && (N_of_ascii c <=? 57)%N.

Definition digitVal (c : ascii) : Z := Z.of_N (N_of_ascii c) - 48.

(** [getnum(s, fixed)]: one or two digits, exactly two when [fixed]. *)
Definition getnum (s : string) (fixed : bool) : option (Z * string) :=
  match s with
  | String c0 s1 =>
      if isDigit c0 then
        match s1 with
        | String c1 s2 =>
            if isDigit c1 then Some (digitVal c0 * 10 + digitVal c1, s2)
            else if fixed then None else Some (digitVal c0, s1)
        | "" => if fixed then None else Some (digitVal c0, s1)
        end
      else None
  | "" => None
  end.

(** [stdLongYear]: four bytes, all digits. *)
Definition getyear (value : string) : option (Z * string) :=
  match value with
  | String a (String b (String c (String d rest))) =>
      if isDigit a && isDigit b && isDigit c && isDigit d
      then Some (((digitVal a * 10 + digitVal b) * 10 + digitVal c) * 10 + digitVal d, rest)
      else None
  | _ => None
  end.

(** A literal piece of the layout must be the prefix of the value. *)
Definition skip (value lit : string) : option string :=
  if HasPrefix value lit then Some (drop (String.length lit) value) else None.

Fixpoint skipDigits (s : string) : string :=
  match s with
  | String c s' => if isDigit c then skipDigits s' else s
  | "" => ""
  end.

(** A fractional second after the seconds field is accepted although the
    layout has none; only its extent matters for [Unix]. *)
Definition skipFraction (value : string) : string :=
  match value with
  | String p (String d rest) =>
      if (bool_decide (p = "."%char) || bool_decide (p = ","%char)) && isDigit d
      then skipDigits rest else value
  | _ => value
  end.

(** [stdISO8601ColonTZ] ("Z07:00"): the offset in seconds east of UTC. *)
Definition getzone (value : string) : option (Z * string) :=
  match value with
  | String sign rest =>
      if bool_decide (sign = "Z"%char) then Some (0, rest) else
      match rest with
      | String h1 (String h2 (String colon (String m1 (String m2 rest)))) =>
          if negb (bool_decide (colon = ":"%char)) then None else
          '(hr, _) ← getnum (String h1 (String h2 "")) true;
          '(mm, _) ← getnum (String m1 (String m2 "")) true;
          if (24 <? hr) || (60 <? mm) then None
          else if bool_decide (sign = "+"%char) then Some ((hr * 60 + mm) * 60, rest)
          else if bool_decide (sign = "-"%char) then Some (- ((hr * 60 + mm) * 60), rest)
          else None
      | _ => None
      end
  | "" => None
  end.

Definition isLeap (year : Z) : bool :=
  (year mod 4 =? 0) && (negb (year mod 100 =? 0) || (year mod 400 =? 0)).

(** [daysBefore[m-1]]: days in a non-leap year before month [m]. *)
Definition daysBefore (month : Z) : Z :=
  match month with
  | 1 => 0 | 2 => 31 | 3 => 59 | 4 => 90 | 5 => 120 | 6 => 151
  | 7 => 181 | 8 => 212 | 9 => 243 | 10 => 273 | 11 => 304 | 12 => 334
  | _ => 365
  end.

Definition daysIn (month year : Z) : Z :=
  if (month =? 2) && isLeap year then 29
  else daysBefore (month + 1) - daysBefore month.

(** Days from 1970-01-01 to the first day of [year]. *)
Definition daysSinceEpoch (year : Z) : Z :=
  let leaps y := y / 4 - y / 100 + y / 400 in
  365 * (year - 1970) + leaps (year - 1) - leaps 1969.

(** [time.Date(year, month, day, hour, min, sec, 0, time.UTC).Unix()]
    for fields within their ranges. *)
Definition unixDate (year month day hour min sec : Z) : Z :=
  let d := daysSinceEpoch year + daysBefore month
           + (if isLeap year && (3 <=? month) then 1 else 0) + (day - 1) in
  d * 86400 + hour * 3600 + min * 60 + sec.

(** [time.Parse(time.RFC3339, value)] followed by [Unix()]: the layout is
    ["2006-01-02T15:04:05Z07:00"].  [None] stands for a [*time.ParseError]. *)
Definition ParseRFC3339 (value : string) : option Z :=
  '(year, value) ← getyear value;
  value ← skip value "-";
  '(month, value) ← getnum value true;
  if (month <=? 0) || (12 <? month) then None else
  value ← skip value "-";
  '(day, value) ← getnum value true;
  value ← skip value "T";
  '(hour, value) ← getnum value false;
  if 24 <=? hour then None else
  value ← skip value ":";
  '(min, value) ← getnum value true;
  if 60 <=? min then None else
  value ← skip value ":";
  '(sec, value) ← getnum value true;
  if 60 <=? sec then None else
  let value := skipFraction value in
  '(zoneOffset, value) ← getzone value;
  if negb (bool_decide (value = "")) then None else
  if (day <? 1) || (daysIn month year <? day) then None else
  Some (unixDate year month day hour min sec - zoneOffset).

End Time.

(** [timeFieldToTimestamp]. *)
Definition timeFieldToTimestamp (v : string) : outcome Z :=
  let v' := v +:+ ":00+02:00" in
  match Time.ParseRFC3339 v' with
  | None => Err (WrapUnableToParse (ParseError v') v')
  | Some t => Ok t
  end.

(** The spec's time strings, [YYYY-MM-DDTHH:MM]: the fields of a minute
    written with four and two decimal digits. *)
Definition digitChar (d : Z) : ascii := ascii_of_N (Z.to_N (48 + d)).

Definition twoDigits (n : Z) : string :=
  String (digitChar (n / 10)) (String (digitChar (n mod 10)) "").

Definition fourDigits (n : Z) : string :=
  String (digitChar (n / 1000)) (String (digitChar (n / 100 mod 10)) (twoDigits (n mod 100))).

Definition minuteString (year month day hour min : Z) : string :=
  fourDigits year +:+ "-" +:+ twoDigits month +:+ "-" +:+ twoDigits day
  +:+ "T" +:+ twoDigits hour +:+ ":" +:+ twoDigits min.

(** ** The frontend *)

#[global] Instance outcome_ret : MRet outcome := λ A a, Ok a.
#[global] Instance outcome_bind : MBind outcome := λ A B f m,
  match m with
  | Ok a => f a
  | Err e => Err e
  | Panic => Panic
  end.

(** [errors.Wrap(err, msg)] on the error of a call. *)
Definition wrapErr {A} (msg : string) (m : outcome A) : outcome A :=
  match m with
  | Err e => Err (Wrap e msg)
  | _ => m
  end.

(** [url.Values], a [map[string][]string]. *)
Abbreviation Values := (gmap string (list string)).

(** [fields[key]]: a missing key yields the nil slice. *)
Definition values (fields : Values) (key : string) : list string :=
  default [] (fields !! key).

(** [s[0]]: indexing an empty slice panics. *)
Definition index0 (s : list string) : outcome string :=
  match s with
  | [] => Panic
  | v :: _ => Ok v
  end.

(** A sequence of keys a [range] over the map can yield: every key once. *)
Definition rangeOrder (fields : Values) (order : list string) : Prop :=
  NoDup order ∧ list_to_set order =@{gset string} dom fields.

(** [%d] of an [int64]. *)
Definition itoa (n : Z) : string := NilZero.string_of_int (Z.to_int n).

Module Dict.
(** [Dict] connects a field with a dictionary. *)
Record t : Type := { Field : string; Dict : string; Expr : string; Keys : list string }.
End Dict.

(** [Dicts]: the configured bindings, in configuration order. *)
Abbreviation Dicts := (list Dict.t).

(** [Dicts.getDict]: the first binding of the field. *)
Fixpoint getDict (d : Dicts) (field : string) : option Dict.t :=
  match d with
  | [] => None
  | x :: d' => if decide (Dict.Field x = field) then Some x else getDict d' field
  end.

(** [http.ResponseWriter]: the status line goes out with the first
    [WriteHeader] or [Write]; a later [WriteHeader] changes nothing. *)
Module Http.
Definition StatusOK : Z := 200.
Definition StatusBadRequest : Z := 400.
Definition StatusInternalServerError : Z := 500.

Record ResponseWriter : Type := { status : option Z; body : string }.

Definition newWriter : ResponseWriter := {| status := None; body := "" |}.

Definition WriteHeader (code : Z) (w : ResponseWriter) : ResponseWriter :=
  match status w with
  | None => {| status := Some code; body := body w |}
  | Some _ => w
  end.

Definition Write (b : string) (w : ResponseWriter) : ResponseWriter :=
  {| status := Some (default StatusOK (status w)); body := body w +:+ b |}.

(** What the client receives once the handler has returned: a handler
    that wrote nothing answers 200 with an empty body. *)
Definition response (w : ResponseWriter) : Z * string :=
  (default StatusOK (status w), body w).
End Http.

(** The methods of [*clickhousegw.ClickHouseGateway] the frontend calls;
    [Rows] is [*sql.Rows]. *)
Module ClickHouseGateway.
Record t (Rows : Type) : Type := {
  GetDatabaseName : string;
  Query : string → outcome Rows;
  GetDictValues : string → string → outcome (list string)
}.
Arguments GetDatabaseName {Rows} _.
Arguments Query {Rows} _ _.
Arguments GetDictValues {Rows} _ _ _.
End ClickHouseGateway.

Section Frontend.
Import Strings Http.

(** [fmt.Sprintf(format, operands...)] for a dictionary's key template and
    its string operands; the template comes from the configuration. *)
Context (Sprintf : string → list string → string).

(** [*sql.Rows] and the frontend's [result] series; the row walk of
    [processQuery] that fills a [result], and [result.csv], live with the
    [result] type. *)
Context {Rows result : Type}.
Context (pivot : Rows → outcome result).
Context (csv : result → ResponseWriter → ResponseWriter * option error).

(** [json.Marshal] of a [[]string]. *)
Context (json_Marshal : list string → outcome string).

(** [Frontend]. *)
Record Frontend : Type := { chgw : ClickHouseGateway.t Rows; dictCfgs : Dicts }.

(** [resolveDictIfNecessary]. *)
Definition resolveDictIfNecessary (fe : Frontend) (fieldName : string) : outcome string :=
  let '(flowsFieldName, relatedFieldsName) := parseFieldName fieldName in
  if decide (relatedFieldsName = "") then Ok flowsFieldName else
  match getDict (dictCfgs fe) flowsFieldName with
  | None => Err (Errorf ("Dict for field " +:+ fieldName +:+ " not found"))
  | Some d =>
      let params := if decide (length (Dict.Keys d) = 0%nat)
                    then [flowsFieldName] else Dict.Keys d in
      let expr := Sprintf (Dict.Expr d) params in
      Ok ("dictGet('" +:+ Dict.Dict d +:+ "', '" +:+ relatedFieldsName +:+ "', " +:+ expr +:+ ")")
  end.

(** The breakdown loop of [fieldsToQuery]: what it appends to
    [selectFieldList]. *)
Fixpoint selectBreakdown (fe : Frontend) (breakdown : list string) : list string :=
  match breakdown with
  | [] => []
  | fieldName :: breakdown' =>
      let resolvedFieldName := resolveVirtualField fieldName in
      match resolveDictIfNecessary fe resolvedFieldName with
      | Ok statement =>
          (statement +:+ " as " +:+ fieldName) :: selectBreakdown fe breakdown'
      | _ => selectBreakdown fe breakdown'
      end
  end.

Definition selectFieldList (fe : Frontend) (breakdown : list string) : list string :=
  ["timestamp as t"] ++ selectBreakdown fe breakdown ++ ["sum(size * samplerate) * 8 / 10"].

(** The condition of one filter: the [if len(fields[fieldName]) == 1] of the
    loop below, on the resolved statement and the values found. *)
Definition condition (statement : string) (vs : list string) : string :=
  if decide (length vs = 1%nat)
  then statement +:+ " = '" +:+ hd "" vs +:+ "'"
  else statement +:+ " IN (" +:+ Join (map (λ v, "'" +:+ v +:+ "'") vs) ", " +:+ ")".

(** The parameters the loop passes over. *)
Definition notFilter (fieldName : string) : bool :=
  bool_decide (fieldName = "breakdown") || bool_decide (fieldName = "time_start")
  || bool_decide (fieldName = "time_end") || HasPrefix fieldName "filter_field".

(** The loop over [range fields]: what it appends to [conditions].  Go
    leaves the order of a map range open; [order] is the sequence of keys
    the range yields.  The loop assigns the resolved name back to
    [fieldName] before it reads [fields[fieldName]]. *)
Fixpoint filterConditions (fe : Frontend) (fields : Values) (order : list string)
  : list string :=
  match order with
  | [] => []
  | fieldName :: order' =>
      if notFilter fieldName then filterConditions fe fields order'
      else
        let fieldName := resolveVirtualField fieldName in
        match resolveDictIfNecessary fe fieldName with
        | Ok statement =>
            condition statement (values fields fieldName)
            :: filterConditions fe fields order'
        | _ => filterConditions fe fields order'
        end
  end.

Definition conditions (fe : Frontend) (fields : Values) (order : list string)
  (start end_ : Z) : list string :=
  ("t BETWEEN toDateTime(" +:+ itoa start +:+ ") AND toDateTime(" +:+ itoa end_ +:+ ")")
  :: filterConditions fe fields order.

Definition groupBy (fields : Values) : list string :=
  "t" :: values fields "breakdown".

(** [fieldsToQuery]. *)
Definition fieldsToQuery (fe : Frontend) (fields : Values) (order : list string)
  : outcome string :=
  if decide (fields !! "breakdown" = None) then Err (Errorf "No breakdown set") else
  if decide (fields !! "time_start" = None) then Err (Errorf "No start time given") else
  if decide (fields !! "time_end" = None) then Err (Errorf "No end time given") else
  start ← wrapErr "Unable to parse time"
            (index0 (values fields "time_start") ≫= timeFieldToTimestamp);
  end_ ← wrapErr "Unable to parse time"
            (index0 (values fields "time_end") ≫= timeFieldToTimestamp);
  Ok ("SELECT " +:+ Join (selectFieldList fe (values fields "breakdown")) ", "
      +:+ " FROM " +:+ ClickHouseGateway.GetDatabaseName (chgw fe) +:+ ".flows"
      +:+ " WHERE " +:+ Join (conditions fe fields order start end_) " AND "
      +:+ " GROUP BY " +:+ Join (groupBy fields) ", "
      +:+ " ORDER BY t").

(** [processQuery]. *)
Definition processQuery (fe : Frontend) (query : Values) (order : list string)
  : outcome (option result) :=
  if decide (size query = 0%nat) then Ok None else
  q ← wrapErr "Unable to generate SQL query" (fieldsToQuery fe query order);
  rows ← wrapErr "Query failed" (ClickHouseGateway.Query (chgw fe) q);
  res ← pivot rows;
  Ok (Some res).

(** [QueryHandler], on the parsed query string of the request.  [None]:
    the handler panicked. *)
Definition QueryHandler (fe : Frontend) (query : Values) (order : list string)
  (w : ResponseWriter) : option ResponseWriter :=
  match processQuery fe query order with
  | Panic => None
  | Err _ => Some (WriteHeader StatusInternalServerError w)
  | Ok None => Some (WriteHeader StatusInternalServerError w)
  | Ok (Some res) =>
      match csv res w with
      | (w', Some _) => Some (WriteHeader StatusInternalServerError w')
      | (w', None) => Some w'
      end
  end.

(** [getFieldsDictName]. *)
Fixpoint getFieldsDictName (d : Dicts) (fieldName : string) : string :=
  match d with
  | [] => ""
  | x :: d' => if decide (Dict.Field x = fieldName) then Dict.Dict x
               else getFieldsDictName d' fieldName
  end.

(** [parseDictValueRequest]. *)
Definition parseDictValueRequest (input : string) : outcome (string * string) :=
  match Split input "__" with
  | [p0; p1] => Ok (p0, p1)
  | _ => Err (Errorf "Invalid format")
  end.

(** [sort.Slice(res, func(i, j) bool { return res[i] < res[j] })]: the
    strings in ascending byte order.  [sort.Slice] is not stable, but the
    sorted arrangement of a list of strings is unique ([sortSlice_unique]). *)
Definition sortSlice (res : list string) : list string :=
  merge_sort String.le res.

(** [GetDictValues], on the path of the request URL. *)
Definition GetDictValues (fe : Frontend) (path : string) (w : ResponseWriter)
  : option ResponseWriter :=
  match Split path "/" with
  | [_; _; p2] =>
      match parseDictValueRequest p2 with
      | Ok (fieldName, column) =>
          let dict := getFieldsDictName (dictCfgs fe) fieldName in
          if decide (dict = "") then Some (WriteHeader StatusBadRequest w) else
          match ClickHouseGateway.GetDictValues (chgw fe) dict column with
          | Ok values =>
              let res := filter (λ v, v ≠ "") values in
              let res := sortSlice res in
              match json_Marshal res with
              | Ok j => Some (Write j w)
              | Err _ => Some (WriteHeader StatusInternalServerError w)
              | Panic => None
              end
          | Err _ => Some (WriteHeader StatusInternalServerError w)
          | Panic => None
          end
      | _ => Some (WriteHeader StatusBadRequest w)
      end
  | _ => Some (WriteHeader StatusBadRequest w)
  end.

End Frontend.

(** ** A reference configuration for the examples *)

(** [fmt.Sprintf] on string operands, for the templates of the examples:
    formats made of literal text, [%%], [%s] and [%v].  [%s] and [%v] print
    the operand, or [%!s(MISSING)] and [%!v(MISSING)] when no operand is
    left; operands left over are listed after [%!(EXTRA].  The verbs Go
    formats strings with besides these ([%x], [%X], [%q], [%T]), flags,
    widths, and a [%] that ends the format are not modelled: on them this
    function does not follow Go, and no example uses them. *)
Fixpoint SprintfStrings (format : string) (operands : list string) : string :=
  match format with
  | String "%" (String c rest) =>
      if bool_decide (c = "%"%char) then String "%" (SprintfStrings rest operands)
      else
        match operands with
        | a :: operands' =>
            (if bool_decide (c = "s"%char) || bool_decide (c = "v"%char) then a
             else "%!" +:+ String c ("(string=" +:+ a +:+ ")"))
            +:+ SprintfStrings rest operands'
        | [] => "%!" +:+ String c "(MISSING)" +:+ SprintfStrings rest []
        end
  | String c rest => String c (SprintfStrings rest operands)
  | "" =>
      match operands with
      | [] => ""
      | _ => "%!(EXTRA " +:+ Strings.Join (map (λ a, "string=" +:+ a) operands) ", " +:+ ")"
      end
  end.

(** The double quote, byte 34. *)
Definition dquote : string := String (ascii_of_nat 34) "".

(** [json.Marshal] of a [[]string] whose strings need no escaping. *)
Definition jsonPlainText (res : list string) : string :=
  "[" +:+ Strings.Join (map (λ v, dquote +:+ v +:+ dquote) res) "," +:+ "]".

Definition jsonPlain (res : list string) : outcome string := Ok (jsonPlainText res).

(** A gateway on the database [flowhouse]; its dictionary [asns] has the
    column [name]. *)
Definition exampleGateway : ClickHouseGateway.t unit :=
  {| ClickHouseGateway.GetDatabaseName := "flowhouse";
     ClickHouseGateway.Query := λ _, Ok tt;
     ClickHouseGateway.GetDictValues := λ dict column,
       if bool_decide (dict = "asns") && bool_decide (column = "name")
       then Ok ["b"; ""; "a"; "b"]
       else Err (ExternalError "unknown dictionary") |}.

Definition exampleDicts : Dicts :=
  [ {| Dict.Field := "src_asn"; Dict.Dict := "asns"; Dict.Expr := "toUInt64(%s)";
       Dict.Keys := [] |};
    {| Dict.Field := "src_ip_addr"; Dict.Dict := "prefixes"; Dict.Expr := "tuple(%s, %s)";
       Dict.Keys := ["src_ip_pfx_addr"; "src_ip_pfx_len"] |} ].

Definition exampleFrontend : Frontend :=
  {| chgw := exampleGateway; dictCfgs := exampleDicts |}.

Definition examplePivot (rows : unit) : outcome unit := Ok rows.

Definition exampleCsv (res : unit) (w : Http.ResponseWriter)
  : Http.ResponseWriter * option error := (Http.Write "t" w, None).

(** The request
    [?breakdown=src_asn&breakdown=foo__bar&time_start=2024-01-01T10:00&time_end=2024-01-01T11:00]. *)
Definition requestUnresolved : Values :=
  {[ "breakdown" := ["src_asn"; "foo__bar"];
     "time_start" := ["2024-01-01T10:00"];
     "time_end" := ["2024-01-01T11:00"] ]}.

(** The same time range, broken down by [src_asn__name] and filtered by
    [src_ip_pfx], [dst_asn] and [src_port]. *)
Definition requestFiltered : Values :=
  {[ "breakdown" := ["src_asn__name"];
     "time_start" := ["2024-01-01T10:00"];
     "time_end" := ["2024-01-01T11:00"];
     "src_ip_pfx" := ["10.0.0.0/8"];
     "dst_asn" := ["65001"];
     "src_port" := ["80"; "443"] ]}.

(** One filter on the virtual field [src_ip_pfx]:
    [?breakdown=src_asn&time_start=...&time_end=...&src_ip_pfx=10.0.0.0/8]. *)
Definition requestVirtualFilter : Values :=
  {[ "breakdown" := ["src_asn"];
     "time_start" := ["2024-01-01T10:00"];
     "time_end" := ["2024-01-01T11:00"];
     "src_ip_pfx" := ["10.0.0.0/8"] ]}.

(** The same request with one more parameter, named by the SQL expression
    [src_ip_pfx] resolves to (percent-encoded in the URL). *)
Definition requestShadowed : Values :=
  <[ resolveVirtualField "src_ip_pfx" := ["x"] ]> requestVirtualFilter.

(** ** The rest of the frontend: labels, the index view, the row keys *)

(** [strings.Replace(s, old, new, 1)]: the first occurrence of [old], if
    there is one, gives way to [new]. *)
Definition ReplaceFirst (s old new : string) : string :=
  match Strings.Index s old with
  | Some j => Strings.take j s +:+ new +:+ Strings.drop (j + String.length old) s
  | None => s
  end.

Module Descriptor.
(** An entry of the frontend's [fields] table. *)
Record t : Type := { Name : string; Label : string; ShortLabel : string }.
End Descriptor.

(** [fields], as [init] fills it. *)
Definition fields : list Descriptor.t :=
  [ {| Descriptor.Name := "agent"; Descriptor.Label := "Agent";
       Descriptor.ShortLabel := "A." |};
    {| Descriptor.Name := "int_in"; Descriptor.Label := "Interface In";
       Descriptor.ShortLabel := "Int.In" |};
    {| Descriptor.Name := "int_out"; Descriptor.Label := "Interface Out";
       Descriptor.ShortLabel := "Int.Out" |};
    {| Descriptor.Name := "src_ip_addr"; Descriptor.Label := "Source IP";
       Descriptor.ShortLabel := "Src.IP" |};
    {| Descriptor.Name := "src_ip_pfx"; Descriptor.Label := "Source IP Prefix";
       Descriptor.ShortLabel := "Src.IP.Pfx" |};
    {| Descriptor.Name := "dst_ip_addr"; Descriptor.Label := "Destination IP";
       Descriptor.ShortLabel := "Dst.IP" |};
    {| Descriptor.Name := "dst_ip_pfx"; Descriptor.Label := "Destination IP Prefix";
       Descriptor.ShortLabel := "Dst.IP.Pfx" |};
    {| Descriptor.Name := "src_asn"; Descriptor.Label := "Source ASN";
       Descriptor.ShortLabel := "Src.AS" |};
    {| Descriptor.Name := "dst_asn"; Descriptor.Label := "Destination ASN";
       Descriptor.ShortLabel := "Dst.AS" |};
    {| Descriptor.Name := "ip_protocol"; Descriptor.Label := "IP Protocol";
       Descriptor.ShortLabel := "IP.Proto" |};
    {| Descriptor.Name := "src_port"; Descriptor.Label := "Source Port";
       Descriptor.ShortLabel := "Src.Port" |};
    {| Descriptor.Name := "dst_port"; Descriptor.Label := "Destination Port";
       Descriptor.ShortLabel := "Dst.Port" |} ].

(** [dissectIndexQuery]: the parameters whose name does not start with
    [filter_field]. *)
Definition dissectIndexQuery (values : Values) : Values :=
  filter (λ kv, Strings.HasPrefix kv.1 "filter_field" = false) values.

Module Field.
Record t : Type := { Name : string; Label : string }.
End Field.

Module FieldGroup.
Record t : Type := { Name : string; Label : string; Fields : list Field.t }.
End FieldGroup.

Module IndexView.
(** [IndexView], the data of the index template. *)
Record t : Type := { FieldGroups : list FieldGroup.t; BreakDownLen : Z }.
End IndexView.

Section Labels.

(** [strings.Title]: the first letter of every word in title case. *)
Context (Title : string → string).

(** The loop of [getReadableLabel] over the table: the first entry whose
    name is a prefix of the label has it replaced, and the loop ends. *)
Fixpoint replaceFieldName (table : list Descriptor.t) (label : string) : string :=
  match table with
  | [] => label
  | f :: table' =>
      if Strings.HasPrefix label (Descriptor.Name f)
      then ReplaceFirst label (Descriptor.Name f) (Descriptor.ShortLabel f)
      else replaceFieldName table' label
  end.

(** [getReadableLabel].  A label that contains [__] splits into at least two
    parts ([Split_two_parts]), so [parts[1]] is there and the last case is
    not reachable. *)
Definition getReadableLabel (label : string) : string :=
  let label := replaceFieldName fields label in
  if negb (Strings.Contains label "__") then label else
  match Strings.Split label "__" with
  | p0 :: p1 :: _ => p0 +:+ "." +:+ Title p1
  | _ => label
  end.

(** The values a row of the result set can hold: the types the switch of
    [processQuery] names, the two it asserts, and any other. *)
Context {IP Time float64 : Type}.

(** [net.IP.String]. *)
Context (IP_String : IP → string).

Inductive value : Type :=
  | VUint8 (n : N)
  | VUint16 (n : N)
  | VUint32 (n : N)
  | VUint64 (n : N)
  | VString (s : string)
  | VIP (ip : IP)
  | VTime (t : Time)
  | VFloat64 (f : float64)
  | VOther.

(** One case of the type switch: what the column adds to [keyComponents]. *)
Definition keyComponent (label : string) (v : value) : option string :=
  match v with
  | VUint8 n | VUint16 n | VUint32 n | VUint64 n =>
      Some (label +:+ "=" +:+ itoa (Z.of_N n))
  | VString s => Some (label +:+ "=" +:+ s)
  | VIP ip => Some (label +:+ "=" +:+ IP_String ip)
  | _ => None
  end.

(** The loop [for i := 1; i < len(columns)-1; i++] of [processQuery] on one
    scanned row; the row pairs [columns[i]] with [values[i]], which [Scan]
    has filled for every column. *)
Definition keyComponents (row : list (string * value)) : list string :=
  omap (λ cv, keyComponent (getReadableLabel cv.1) cv.2)
       (take (length row - 2) (drop 1 row)).

(** What one row hands to [res.add]: the time of the first column, the key,
    and the number of the last column before its conversion to [uint64].
    The two type assertions panic on any other type, the first index on a
    row without columns. *)
Definition rowEntry (row : list (string * value)) : outcome (Time * string * float64) :=
  let key := Strings.Join (keyComponents row) ";" in
  match row with
  | [] => Panic
  | (_, v0) :: _ =>
      match v0 with
      | VTime ts =>
          match last row with
          | Some (_, VFloat64 f) => Ok (ts, key, f)
          | _ => Panic
          end
      | _ => Panic
      end
  end.

(** [fe.chgw.DescribeDict]: the columns of a dictionary, or an error. *)
Context (DescribeDict : string → list string + error).

(** The innermost loops of [getIndexView]: the fields one binding adds to
    the group of [field]. *)
Definition dictFieldsOf (field : Descriptor.t) (d : Dict.t) : list Field.t :=
  if decide (Dict.Field d ≠ Descriptor.Name field) then [] else
  match DescribeDict (Dict.Dict d) with
  | inl dictFields =>
      let keyLen := if decide (length (Dict.Keys d) ≠ 0%nat)
                    then length (Dict.Keys d) else 1%nat in
      map (λ c, {| Field.Name := Descriptor.Name field +:+ "__" +:+ c;
                   Field.Label := Descriptor.Label field +:+ " " +:+ Title c |})
          (drop keyLen dictFields)
  | inr _ => []
  end.

(** The group of one field: the field itself, then what its bindings add. *)
Definition fieldGroupOf (field : Descriptor.t) (added : list Field.t) : FieldGroup.t :=
  {| FieldGroup.Name := Descriptor.Name field;
     FieldGroup.Label := Descriptor.Label field;
     FieldGroup.Fields :=
       {| Field.Name := Descriptor.Name field;
          Field.Label := Descriptor.Label field |} :: added |}.

(** One round of the outer loop of [getIndexView]: [BreakDownLen] counts
    every added field, and two more for the round. *)
Definition addFieldGroup (dictCfgs : Dicts) (ret : IndexView.t) (field : Descriptor.t)
  : IndexView.t :=
  let added := flat_map (dictFieldsOf field) dictCfgs in
  {| IndexView.FieldGroups := IndexView.FieldGroups ret ++ [fieldGroupOf field added];
     IndexView.BreakDownLen :=
       IndexView.BreakDownLen ret + Z.of_nat (length added) + 2 |}.

(** [getIndexView], on the frontend's bindings; it returns no error. *)
Definition getIndexView (dictCfgs : Dicts) : IndexView.t :=
  foldl (addFieldGroup dictCfgs)
        {| IndexView.FieldGroups := []; IndexView.BreakDownLen := 0 |} fields.

End Labels.

(** [InsertFlows]: the calls it makes on the database, in order, and the
    error it returns.  The database decides whether a call fails. *)
Module Insert.
Local Open Scope list_scope.

Inductive call (Flow : Type) : Type :=
  | Begin
  | Prepare
  | Exec (fl : Flow)
  | Commit
  | Rollback
  | Close.
Arguments Begin {Flow}.
Arguments Prepare {Flow}.
Arguments Exec {Flow} fl.
Arguments Commit {Flow}.
Arguments Rollback {Flow}.
Arguments Close {Flow}.

(** The errors of the database: of [Begin], of [Prepare], of the [i]-th
    [Exec], of [Commit]. *)
Record Database (Flow : Type) : Type := {
  beginErr : option error;
  prepareErr : option error;
  execErr : nat → Flow → option error;
  commitErr : option error
}.
Arguments beginErr {Flow} _.
Arguments prepareErr {Flow} _.
Arguments execErr {Flow} _ _ _.
Arguments commitErr {Flow} _.

(** The loop over the flows, from the [i]-th flow on. *)
Fixpoint execFlows {Flow : Type} (db : Database Flow) (i : nat) (flows : list Flow)
  : list (call Flow) * option error :=
  match flows with
  | [] => ([], None)
  | fl :: flows' =>
      match execErr db i fl with
      | Some e => ([Exec fl], Some (Wrap e "Exec failed"))
      | None =>
          let '(calls, err) := execFlows db (S i) flows' in
          (Exec fl :: calls, err)
      end
  end.

(** [InsertFlows]; the deferred [stmt.Close] runs at every return after
    [Prepare] has succeeded. *)
Definition InsertFlows {Flow : Type} (db : Database Flow) (flows : list Flow)
  : list (call Flow) * option error :=
  match beginErr db with
  | Some e => ([Begin], Some (Wrap e "Begin failed"))
  | None =>
      match prepareErr db with
      | Some e => ([Begin; Prepare], Some (Wrap e "Prepare failed"))
      | None =>
          match execFlows db 0 flows with
          | (calls, Some e) => ([Begin; Prepare] ++ calls ++ [Close], Some e)
          | (calls, None) =>
              match commitErr db with
              | Some e =>
                  ([Begin; Prepare] ++ calls ++ [Commit; Close],
                   Some (Wrap e "Commit failed"))
              | None => ([Begin; Prepare] ++ calls ++ [Commit; Close], None)
              end
          end
      end
  end.

End Insert.

(** [strings.Title] on ASCII text: a lower-case letter that starts a word
    becomes upper case; letters, digits and [_] continue a word.  Bytes
    above 127 are copied as they are, where Go decodes UTF-8 and maps the
    rune: the function is [strings.Title] on ASCII input only, and the
    examples use it on nothing else. *)
Definition isWordByte (c : ascii) : bool :=
  let n := N_of_ascii c in
  ((48 <=? n) && (n <=? 57) || (65 <=? n) && (n <=? 90)
   || (97 <=? n) && (n <=? 122) || (n =? 95))%N.

Fixpoint titleFrom (inWord : bool) (s : string) : string :=
  match s with
  | "" => ""
  | String c s' =>
      let n := N_of_ascii c in
      String (if negb inWord && (97 <=? n)%N && (n <=? 122)%N
              then ascii_of_N (n - 32) else c)
             (titleFrom (isWordByte c) s')
  end.

Definition TitleAscii (s : string) : string := titleFrom false s.

(** More of the reference configuration: a dictionary description, a
    second gateway with the same [asns] values, a [csv] that fails after its
    first write, a database that accepts every call, and one whose second
    [Exec] fails. *)
Definition exampleDescribeDict (dict : string) : list string + error :=
  inl ["asn"; "name"; "country"].

Definition otherGateway : ClickHouseGateway.t unit :=
  {| ClickHouseGateway.GetDatabaseName := "other";
     ClickHouseGateway.Query := λ _, Err (ExternalError "down");
     ClickHouseGateway.GetDictValues := λ dict column, Ok ["b"; ""; "a"; "b"] |}.

Definition failingCsv (res : unit) (w : Http.ResponseWriter)
  : Http.ResponseWriter * option error :=
  (Http.Write "t?," w, Some (ExternalError "broken pipe")).

Definition acceptingDatabase : Insert.Database nat :=
  {| Insert.beginErr := None;
     Insert.prepareErr := None;
     Insert.execErr := λ _ _, None;
     Insert.commitErr := None |}.

Definition failingDatabase : Insert.Database nat :=
  {| Insert.beginErr := None;
     Insert.prepareErr := None;
     Insert.execErr := λ i _, if decide (i = 1%nat) then Some (ExternalError "exec") else None;
     Insert.commitErr := None |}.

(** * Facts *)

(** ** The string functions *)

Section StringFacts.
Import Strings.

Lemma app_String c (s t : string) : String c s +:+ t = String c (s +:+ t).
Proof. reflexivity. Qed.

Lemma app_empty_l (t : string) : "" +:+ t = t.
Proof. reflexivity. Qed.

Ltac str_simpl := repeat (progress (simpl; rewrite ?app_String, ?app_empty_l)).

Lemma length_app (s t : string) :
  String.length (s +:+ t) = (String.length s + String.length t)%nat.
Proof. induction s as [|c s IH]; str_simpl; [done|]. by rewrite IH. Qed.

Lemma take_app_length (s t : string) : take (String.length s) (s +:+ t) = s.
Proof.
  induction s as [|c s IH]; str_simpl.
  - by destruct t.
  - by rewrite IH.
Qed.

Lemma drop_app_length (s t : string) : drop (String.length s) (s +:+ t) = t.
Proof. induction s as [|c s IH]; str_simpl; done. Qed.

Lemma drop_add (n m : nat) (s : string) : drop (n + m) s = drop m (drop n s).
Proof.
  revert s; induction n as [|n IH]; intros s; simpl; [done|].
  destruct s as [|c s]; [by destruct m|]. apply IH.
Qed.

Lemma length_drop (n : nat) (s : string) :
  String.length (drop n s) = (String.length s - n)%nat.
Proof.
  revert s; induction n as [|n IH]; intros [|c s]; simpl; auto with lia.
Qed.

Lemma HasPrefix_app (s t : string) : HasPrefix (s +:+ t) s = true.
Proof.
  induction s as [|c s IH]; str_simpl; [done|].
  rewrite decide_True by done. apply IH.
Qed.

Lemma HasPrefix_length (s p : string) :
  HasPrefix s p = true → (String.length p ≤ String.length s)%nat.
Proof.
  revert s; induction p as [|c p IH]; intros s; simpl; [lia|].
  destruct s as [|d s]; [done|]. case_decide; [|done].
  intros Hp%IH. simpl. lia.
Qed.

Lemma Index_bound (s sep : string) (m : nat) :
  Index s sep = Some m → (m + String.length sep ≤ String.length s)%nat.
Proof.
  revert m; induction s as [|c s IH]; intros m; simpl.
  - destruct (HasPrefix "" sep) eqn:E; [|done].
    intros [= <-]. by apply HasPrefix_length in E.
  - destruct (HasPrefix (String c s) sep) eqn:E.
    + intros [= <-]. by apply HasPrefix_length in E.
    + destruct (Index s sep) as [k|] eqn:Ek; [|done].
      intros [= <-]. specialize (IH k eq_refl). lia.
Qed.

(** With enough fuel the loop has run to its end. *)
Lemma genSplit_fuel_irrel (sep : string) (n1 n2 : nat) (s : string) :
  sep ≠ "" → (String.length s ≤ n1)%nat → (String.length s ≤ n2)%nat →
  genSplit n1 s sep = genSplit n2 s sep.
Proof.
  intros Hsep.
  assert (0 < String.length sep)%nat as Hlen by (destruct sep; [done|simpl; lia]).
  revert n2 s. induction n1 as [|n1 IH]; intros n2 s H1 H2.
  - destruct n2 as [|n2]; simpl; [done|].
    destruct (Index s sep) as [m|] eqn:Em; [|done].
    apply Index_bound in Em. lia.
  - simpl. destruct (Index s sep) as [m|] eqn:Em.
    + pose proof (Index_bound _ _ _ Em) as Hb.
      destruct n2 as [|n2]; [lia|]. simpl. rewrite Em. f_equal.
      apply IH; rewrite length_drop; lia.
    + destruct n2; simpl; [done|by rewrite Em].
Qed.

Lemma genSplit_fuel (sep : string) (n : nat) (s : string) :
  sep ≠ "" → (String.length s ≤ n)%nat →
  genSplit n s sep = Split s sep.
Proof. intros. by apply genSplit_fuel_irrel. Qed.

Lemma Split_not_nil (s sep : string) : Split s sep ≠ [].
Proof.
  unfold Split. destruct (String.length s); simpl; [done|].
  by destruct (Index s sep).
Qed.

(** No separator: the whole string is the only part. *)
Lemma Split_no_sep (s sep : string) : Index s sep = None → Split s sep = [s].
Proof.
  intros H. unfold Split. destruct (String.length s); simpl; [done|]. by rewrite H.
Qed.

(** A separator at offset [length base]: [base] is the first part and the
    others come from splitting what follows the separator. *)
Lemma Split_at_first (base rest sep : string) :
  sep ≠ "" →
  Index (base +:+ sep +:+ rest) sep = Some (String.length base) →
  Split (base +:+ sep +:+ rest) sep = base :: Split rest sep.
Proof.
  intros Hsep Hi. unfold Split.
  assert (0 < String.length sep)%nat as Hlen by (destruct sep; [done|simpl; lia]).
  rewrite !length_app.
  destruct (String.length base + (String.length sep + String.length rest))%nat
    as [|k] eqn:Ek; [lia|].
  simpl. rewrite Hi, take_app_length, drop_add, !drop_app_length.
  f_equal. apply genSplit_fuel; [done|lia].
Qed.

Lemma HasPrefix_drop (s p : string) :
  HasPrefix s p = true → s = p +:+ drop (String.length p) s.
Proof.
  revert s; induction p as [|c p IH]; intros s; simpl.
  - by destruct s.
  - destruct s as [|d s]; [done|]. case_decide as Hc; [|done]. subst d.
    intros Hp%IH. rewrite app_String. by f_equal.
Qed.

Lemma Index_Some_app (s sep : string) (m : nat) :
  Index s sep = Some m → s = take m s +:+ sep +:+ drop (m + String.length sep) s.
Proof.
  revert m; induction s as [|c s IH]; intros m; simpl.
  - destruct (HasPrefix "" sep) eqn:E; [|done]. intros [= <-].
    by apply HasPrefix_drop in E.
  - destruct (HasPrefix (String c s) sep) eqn:E.
    + intros [= <-]. by apply HasPrefix_drop in E.
    + destruct (Index s sep) as [k|] eqn:Ek; [|done]. intros [= <-].
      simpl. rewrite app_String. f_equal. by apply IH.
Qed.

Lemma genSplit_not_nil (n : nat) (s sep : string) : genSplit n s sep ≠ [].
Proof. destruct n; simpl; [done|]. by destruct (Index s sep). Qed.

Lemma Join_cons (e sep : string) (elems : list string) :
  elems ≠ [] → Join (e :: elems) sep = e +:+ sep +:+ Join elems sep.
Proof. by destruct elems. Qed.

(** Joining the parts with the separator gives the string back. *)
Lemma Join_Split (s sep : string) : Join (Split s sep) sep = s.
Proof.
  unfold Split. generalize (String.length s) as n. intros n. revert s.
  induction n as [|n IH]; intros s; [done|].
  cbn [genSplit]. destruct (Index s sep) as [m|] eqn:Em; [|done].
  rewrite Join_cons by apply genSplit_not_nil.
  rewrite IH. symmetry. by apply Index_Some_app.
Qed.

End StringFacts.


Section FieldNameFacts.
Import Strings.

Lemma Contains_false (s substr : string) :
  Contains s substr = false ↔ Index s substr = None.
Proof.
  unfold Contains. rewrite bool_decide_eq_false, <- eq_None_not_Some. done.
Qed.

Lemma parseFieldName_no_sep (name : string) :
  Index name "__" = None → parseFieldName name = (name, "").
Proof. intros H. unfold parseFieldName. by rewrite (Split_no_sep _ _ H). Qed.

Lemma parseFieldName_at_first (base rest : string) :
  Index (base +:+ "__" +:+ rest) "__" = Some (String.length base) →
  parseFieldName (base +:+ "__" +:+ rest) = (base, (parseFieldName rest).1).
Proof.
  intros H. unfold parseFieldName.
  rewrite (Split_at_first base rest "__") by (done || discriminate).
  pose proof (Split_not_nil rest "__") as Hne.
  destruct (Split rest "__") as [|p0 [|p1 ps]]; done.
Qed.

(** The first part of a name: all of it, or what stands before its first
    [__]. *)
Lemma parseFieldName_fst (name : string) :
  (parseFieldName name).1
  = match Index name "__" with Some j => take j name | None => name end.
Proof.
  unfold parseFieldName, Split. destruct (String.length name) as [|n] eqn:El.
  - destruct name; [done|discriminate].
  - simpl. destruct (Index name "__") as [m|]; [|done].
    by destruct (genSplit n (drop (m + 2) name) "__") as [|p1 ps].
Qed.

(** A name with a [__]: the base stands before the first [__], the subfield
    is the first part of what follows it. *)
Lemma parseFieldName_composite (name : string) (m : nat) :
  Index name "__" = Some m →
  parseFieldName name = (take m name, (parseFieldName (drop (m + 2) name)).1).
Proof.
  intros Hi. pose proof (Index_bound _ _ _ Hi) as Hb. simpl in Hb.
  unfold parseFieldName at 1. unfold Split.
  destruct (String.length name) as [|n] eqn:El; [lia|].
  simpl. rewrite Hi.
  rewrite (genSplit_fuel "__" n (drop (m + 2) name)); cycle 1.
  { discriminate. }
  { rewrite length_drop. lia. }
  unfold parseFieldName. pose proof (Split_not_nil (drop (m + 2) name) "__") as Hne.
  by destruct (Split (drop (m + 2) name) "__") as [|p0 [|p1 ps]].
Qed.

Lemma resolveVirtualField_plain (name : string) :
  name ≠ "src_ip_pfx" → name ≠ "dst_ip_pfx" → resolveVirtualField name = name.
Proof. intros. unfold resolveVirtualField. by rewrite !decide_False. Qed.

Lemma resolveVirtualField_no_sep (name : string) :
  Index (resolveVirtualField name) "__" = Index name "__".
Proof.
  unfold resolveVirtualField. repeat case_decide; subst; reflexivity.
Qed.

End FieldNameFacts.

(** ** Field resolution *)

Section ResolverFacts.
Import Strings.
Context (Sprintf : string → list string → string).
Context {Rows : Type}.
Implicit Types fe : @Frontend Rows.

Lemma resolveDictIfNecessary_plain fe (name : string) :
  Index name "__" = None → resolveDictIfNecessary Sprintf fe name = Ok name.
Proof.
  intros H. unfold resolveDictIfNecessary.
  by rewrite (parseFieldName_no_sep _ H).
Qed.

Lemma resolveDictIfNecessary_unbound fe (name : string) :
  (parseFieldName name).2 ≠ "" →
  getDict (dictCfgs fe) (parseFieldName name).1 = None →
  resolveDictIfNecessary Sprintf fe name
  = Err (Errorf ("Dict for field " +:+ name +:+ " not found")).
Proof.
  unfold resolveDictIfNecessary. destruct (parseFieldName name) as [b r]; simpl.
  intros Hr Hd. by rewrite decide_False, Hd.
Qed.

(** C3 (as amended): a name without [__] parses as a plain field with an
    empty subfield; a name whose first [__] follows [base] parses with that
    base, and its subfield is the first part of the remainder, that is the
    text between the first [__] and the next one (the whole remainder when it
    has no [__]). *)
Theorem parseFieldName_first_separator (name : string) :
  (Index name "__" = None → parseFieldName name = (name, "")) ∧
  (∀ base rest : string,
     name = base +:+ "__" +:+ rest →
     Index name "__" = Some (String.length base) →
     parseFieldName name = (base, (parseFieldName rest).1) ∧
     (Index rest "__" = None → parseFieldName name = (base, rest))).
Proof.
  split; [apply parseFieldName_no_sep|].
  intros base rest -> Hi. rewrite (parseFieldName_at_first _ _ Hi).
  split; [done|]. intros Hr. by rewrite (parseFieldName_no_sep _ Hr).
Qed.

(** C9: a field name without [__] that is neither [src_ip_pfx] nor
    [dst_ip_pfx] resolves to itself. *)
Theorem resolve_plain_field_unchanged fe (name : string) :
  Contains name "__" = false → name ≠ "src_ip_pfx" → name ≠ "dst_ip_pfx" →
  resolveVirtualField name = name ∧
  resolveDictIfNecessary Sprintf fe (resolveVirtualField name) = Ok name.
Proof.
  intros Hc%Contains_false H1 H2.
  rewrite (resolveVirtualField_plain _ H1 H2). split; [done|].
  by apply resolveDictIfNecessary_plain.
Qed.

(** C5 (as amended): for a name with a [__], let [base] be the text before
    the first [__] and [sub] the text between that [__] and the next one
    (all that follows when there is no other).  If [base] has a binding,
    resolution returns [base] itself when [sub] is empty, and otherwise
    [dictGet] on the binding's dictionary, the attribute [sub], and the
    binding's template interpolated with its keys, or with [base] alone when
    it has none.  What follows a second [__] has no influence. *)
Theorem resolve_composite_field_dictGet fe (name : string) (m : nat) (d : Dict.t) :
  Index name "__" = Some m →
  getDict (dictCfgs fe) (take m name) = Some d →
  let base := take m name in
  let rest := drop (m + 2) name in
  let sub := match Index rest "__" with Some j => take j rest | None => rest end in
  name = base +:+ "__" +:+ rest ∧
  resolveDictIfNecessary Sprintf fe (resolveVirtualField name)
  = if decide (sub = "") then Ok base
    else Ok ("dictGet('" +:+ Dict.Dict d +:+ "', '" +:+ sub +:+ "', "
             +:+ Sprintf (Dict.Expr d)
                   (match Dict.Keys d with [] => [base] | _ :: _ => Dict.Keys d end)
             +:+ ")").
Proof.
  intros Hi Hd. cbv zeta. split; [by apply (Index_Some_app name "__" m)|].
  rewrite resolveVirtualField_plain; cycle 1.
  { intros E. rewrite E in Hi. vm_compute in Hi. done. }
  { intros E. rewrite E in Hi. vm_compute in Hi. done. }
  unfold resolveDictIfNecessary.
  rewrite (parseFieldName_composite _ _ Hi), parseFieldName_fst.
  case_decide; [done|]. rewrite Hd. by destruct (Dict.Keys d).
Qed.

End ResolverFacts.

(** C3, as stated, fails on a name with two separators: the subfield of
    [a__b__c] is [b], not [b__c]. *)
Lemma parseFieldName_two_separators :
  parseFieldName "a__b__c" = ("a", "b") ∧ "b" ≠ "b__c".
Proof. split; [reflexivity | discriminate]. Qed.

Lemma parseFieldName_first_separator_witness :
  parseFieldName "src_asn__name" = ("src_asn", "name")
  ∧ parseFieldName "src_asn" = ("src_asn", "")
  ∧ parseFieldName "a__b__c" = ("a", (parseFieldName "b__c").1).
Proof.
  split; [|split].
  - apply (proj2 (parseFieldName_first_separator "src_asn__name") "src_asn" "name");
      reflexivity.
  - apply (proj1 (parseFieldName_first_separator "src_asn")). reflexivity.
  - apply (proj2 (parseFieldName_first_separator "a__b__c") "a" "b__c"); reflexivity.
Defined.

Lemma resolve_plain_field_unchanged_witness :
  resolveVirtualField "src_asn" = "src_asn" ∧
  resolveDictIfNecessary SprintfStrings exampleFrontend (resolveVirtualField "src_asn")
  = Ok "src_asn".
Proof.
  apply (resolve_plain_field_unchanged SprintfStrings exampleFrontend "src_asn");
    [reflexivity | discriminate | discriminate].
Defined.

Lemma resolve_composite_field_dictGet_witness :
  resolveDictIfNecessary SprintfStrings exampleFrontend
    (resolveVirtualField "src_ip_addr__country")
  = Ok "dictGet('prefixes', 'country', tuple(src_ip_pfx_addr, src_ip_pfx_len))"
  ∧ resolveDictIfNecessary SprintfStrings exampleFrontend (resolveVirtualField "src_asn__name")
  = Ok "dictGet('asns', 'name', toUInt64(src_asn))"
  ∧ resolveDictIfNecessary SprintfStrings exampleFrontend
      (resolveVirtualField "src_asn__name__x")
  = Ok "dictGet('asns', 'name', toUInt64(src_asn))"
  ∧ resolveDictIfNecessary SprintfStrings exampleFrontend (resolveVirtualField "src_asn__")
  = Ok "src_asn".
Proof.
  split; [|split; [|split]].
  - apply (proj2 (resolve_composite_field_dictGet SprintfStrings exampleFrontend
             "src_ip_addr__country" 11
             {| Dict.Field := "src_ip_addr"; Dict.Dict := "prefixes";
                Dict.Expr := "tuple(%s, %s)";
                Dict.Keys := ["src_ip_pfx_addr"; "src_ip_pfx_len"] |}
             eq_refl eq_refl)).
  - apply (proj2 (resolve_composite_field_dictGet SprintfStrings exampleFrontend
             "src_asn__name" 7
             {| Dict.Field := "src_asn"; Dict.Dict := "asns"; Dict.Expr := "toUInt64(%s)";
                Dict.Keys := [] |}
             eq_refl eq_refl)).
  - apply (proj2 (resolve_composite_field_dictGet SprintfStrings exampleFrontend
             "src_asn__name__x" 7
             {| Dict.Field := "src_asn"; Dict.Dict := "asns"; Dict.Expr := "toUInt64(%s)";
                Dict.Keys := [] |}
             eq_refl eq_refl)).
  - apply (proj2 (resolve_composite_field_dictGet SprintfStrings exampleFrontend
             "src_asn__" 7
             {| Dict.Field := "src_asn"; Dict.Dict := "asns"; Dict.Expr := "toUInt64(%s)";
                Dict.Keys := [] |}
             eq_refl eq_refl)).
Defined.

(** C5, as stated, fails on composite names whose base has a binding: the
    attribute of [src_asn__name__x] is [name], not [name__x], and
    [src_asn__] resolves to [src_asn] with no lookup at all. *)
Lemma resolve_composite_second_separator :
  is_Some (getDict (dictCfgs exampleFrontend) "src_asn") ∧
  resolveDictIfNecessary SprintfStrings exampleFrontend
    (resolveVirtualField ("src_asn" +:+ "__" +:+ "name__x"))
  = Ok "dictGet('asns', 'name', toUInt64(src_asn))" ∧
  "dictGet('asns', 'name', toUInt64(src_asn))"
  ≠ "dictGet('asns', 'name__x', toUInt64(src_asn))" ∧
  resolveDictIfNecessary SprintfStrings exampleFrontend
    (resolveVirtualField ("src_asn" +:+ "__" +:+ ""))
  = Ok "src_asn".
Proof.
  split; [by eexists|]. split; [vm_compute; reflexivity|].
  split; [discriminate|]. vm_compute; reflexivity.
Qed.

(** ** Time strings *)

Ltac div_lia := Z.div_mod_to_equations; lia.

Section TimeFacts.
Import Strings Time.

Lemma digitChar_digit (d : Z) :
  0 ≤ d ≤ 9 → isDigit (digitChar d) = true ∧ digitVal (digitChar d) = d.
Proof.
  intros H.
  assert (d = 0 ∨ d = 1 ∨ d = 2 ∨ d = 3 ∨ d = 4 ∨ d = 5 ∨ d = 6 ∨ d = 7 ∨ d = 8 ∨ d = 9)
    as Hd by lia.
  repeat (destruct Hd as [-> | Hd]); try subst d; by vm_compute.
Qed.

Lemma getnum_twoDigits (n : Z) (rest : string) (fixed : bool) :
  0 ≤ n < 100 → getnum (twoDigits n +:+ rest) fixed = Some (n, rest).
Proof.
  intros H. unfold twoDigits. rewrite !app_String, app_empty_l. unfold getnum.
  destruct (digitChar_digit (n / 10)) as [-> ->]; [div_lia|].
  destruct (digitChar_digit (n mod 10)) as [-> ->]; [div_lia|].
  do 2 f_equal. div_lia.
Qed.

Lemma getyear_fourDigits (n : Z) (rest : string) :
  0 ≤ n ≤ 9999 → getyear (fourDigits n +:+ rest) = Some (n, rest).
Proof.
  intros H. unfold fourDigits, twoDigits. rewrite !app_String, app_empty_l. unfold getyear.
  destruct (digitChar_digit (n / 1000)) as [-> ->]; [div_lia|].
  destruct (digitChar_digit (n / 100 mod 10)) as [-> ->]; [div_lia|].
  destruct (digitChar_digit (n mod 100 / 10)) as [-> ->]; [div_lia|].
  destruct (digitChar_digit (n mod 100 mod 10)) as [-> ->]; [div_lia|].
  simpl. do 2 f_equal. div_lia.
Qed.

Lemma skip_app (lit rest : string) : skip (lit +:+ rest) lit = Some rest.
Proof. unfold skip. by rewrite HasPrefix_app, drop_app_length. Qed.

Lemma app_assoc_str (s t u : string) : (s +:+ t) +:+ u = s +:+ t +:+ u.
Proof. induction s as [|c s IH]; [done|]. by rewrite !app_String, IH. Qed.

End TimeFacts.

Section TimeParse.
Import Strings Time.

Lemma ParseRFC3339_minuteString (year month day hour min : Z) :
  0 ≤ year ≤ 9999 → 1 ≤ month ≤ 12 → 1 ≤ day ≤ daysIn month year →
  0 ≤ hour ≤ 23 → 0 ≤ min ≤ 59 →
  ParseRFC3339 (minuteString year month day hour min +:+ ":00+02:00")
  = Some (unixDate year month day hour min 0 - 2 * 3600).
Proof.
  intros Hy Hm Hd Hh Hmin.
  assert (day < 100) as Hd100.
  { unfold daysIn, daysBefore in Hd.
    assert (month = 1 ∨ month = 2 ∨ month = 3 ∨ month = 4 ∨ month = 5 ∨ month = 6 ∨
            month = 7 ∨ month = 8 ∨ month = 9 ∨ month = 10 ∨ month = 11 ∨ month = 12)
      as Hc by lia.
    repeat (destruct Hc as [-> | Hc]); try subst month; simpl in Hd;
      try destruct (isLeap year); simpl in Hd; lia. }
  unfold minuteString. rewrite !app_assoc_str.
  change ":00+02:00" with (":" +:+ "00+02:00").
  unfold ParseRFC3339.
  rewrite getyear_fourDigits by lia. cbn [mbind option_bind].
  rewrite skip_app. cbn [mbind option_bind].
  rewrite getnum_twoDigits by lia. cbn [mbind option_bind].
  rewrite (proj2 (Z.leb_gt month 0)), (proj2 (Z.ltb_ge 12 month)) by lia.
  cbn [orb].
  rewrite skip_app. cbn [mbind option_bind].
  rewrite getnum_twoDigits by lia. cbn [mbind option_bind].
  rewrite skip_app. cbn [mbind option_bind].
  rewrite getnum_twoDigits by lia. cbn [mbind option_bind].
  rewrite (proj2 (Z.leb_gt 24 hour)) by lia.
  rewrite skip_app. cbn [mbind option_bind].
  rewrite getnum_twoDigits by lia. cbn [mbind option_bind].
  rewrite (proj2 (Z.leb_gt 60 min)) by lia.
  rewrite skip_app. cbn [mbind option_bind].
  change (getnum "00+02:00" true) with (Some (0, "+02:00")). cbn [mbind option_bind].
  change (60 <=? 0) with false. cbv iota.
  change (getzone (skipFraction "+02:00")) with (Some (7200, "")).
  cbn [mbind option_bind].
  change (negb (bool_decide ("" = ""))) with false. cbv iota.
  rewrite (proj2 (Z.ltb_ge day 1)), (proj2 (Z.ltb_ge (daysIn month year) day)) by lia.
  cbn [orb]. reflexivity.
Qed.

Lemma timeFieldToTimestamp_minuteString (year month day hour min : Z) :
  0 ≤ year ≤ 9999 → 1 ≤ month ≤ 12 → 1 ≤ day ≤ daysIn month year →
  0 ≤ hour ≤ 23 → 0 ≤ min ≤ 59 →
  timeFieldToTimestamp (minuteString year month day hour min)
  = Ok (unixDate year month day hour min 0 - 2 * 3600).
Proof.
  intros. unfold timeFieldToTimestamp.
  by rewrite ParseRFC3339_minuteString.
Qed.

Lemma timeFieldToTimestamp_unparsable (v : string) :
  ParseRFC3339 (v +:+ ":00+02:00") = None →
  timeFieldToTimestamp v
  = Err (WrapUnableToParse (ParseError (v +:+ ":00+02:00")) (v +:+ ":00+02:00")).
Proof. intros H. unfold timeFieldToTimestamp. by rewrite H. Qed.

End TimeParse.

(** ** Which strings [timeFieldToTimestamp] accepts *)

Section TimeInversion.
Import Strings Time.
Local Open Scope list_scope.

Lemma skip_inv (s lit r : string) : skip s lit = Some r → s = lit +:+ r.
Proof.
  unfold skip. destruct (HasPrefix s lit) eqn:E; [|done].
  intros [= <-]. by apply HasPrefix_drop.
Qed.

Lemma isDigit_inv (c : ascii) :
  isDigit c = true → 0 ≤ digitVal c ≤ 9 ∧ c = digitChar (digitVal c).
Proof.
  unfold isDigit, digitVal, digitChar.
  intros [H1%N.leb_le H2%N.leb_le]%andb_prop. split; [lia|].
  replace (Z.to_N (48 + (Z.of_N (N_of_ascii c) - 48))) with (N_of_ascii c) by lia.
  by rewrite ascii_N_embedding.
Qed.

Lemma getnum_fixed_inv (s r : string) (n : Z) :
  getnum s true = Some (n, r) → 0 ≤ n ≤ 99 ∧ s = twoDigits n +:+ r.
Proof.
  unfold getnum. destruct s as [|c0 [|c1 s2]]; [done| |].
  - by destruct (isDigit c0).
  - destruct (isDigit c0) eqn:E0; [|done]. destruct (isDigit c1) eqn:E1; [|done].
    intros [= <- <-].
    destruct (isDigit_inv _ E0) as [H0 Hc0], (isDigit_inv _ E1) as [H1 Hc1].
    split; [lia|]. unfold twoDigits. rewrite !app_String, app_empty_l.
    replace ((digitVal c0 * 10 + digitVal c1) / 10) with (digitVal c0) by div_lia.
    replace ((digitVal c0 * 10 + digitVal c1) mod 10) with (digitVal c1) by div_lia.
    by rewrite <- Hc0, <- Hc1.
Qed.

Lemma getnum_free_inv (s r : string) (n : Z) :
  getnum s false = Some (n, r) →
  0 ≤ n ≤ 99 ∧ (s = twoDigits n +:+ r ∨ (n ≤ 9 ∧ s = String (digitChar n) r)).
Proof.
  unfold getnum. destruct s as [|c0 s1]; [done|].
  destruct (isDigit c0) eqn:E0; [|done].
  destruct (isDigit_inv _ E0) as [H0 Hc0].
  destruct s1 as [|c1 s2].
  { intros [= <- <-]. split; [lia|]. right. split; [lia|]. by rewrite <- Hc0. }
  destruct (isDigit c1) eqn:E1.
  - intros Hn. destruct (getnum_fixed_inv (String c0 (String c1 s2)) r n) as [? ?].
    { unfold getnum. by rewrite E0, E1. }
    split; [done|]. by left.
  - intros [= <- <-]. split; [lia|]. right. split; [lia|]. by rewrite <- Hc0.
Qed.

Lemma getyear_inv (s r : string) (y : Z) :
  getyear s = Some (y, r) → 0 ≤ y ≤ 9999 ∧ s = fourDigits y +:+ r.
Proof.
  unfold getyear. destruct s as [|a [|b [|c [|d s]]]]; try done.
  destruct (isDigit a) eqn:Ea; [|done]. destruct (isDigit b) eqn:Eb; [|done].
  destruct (isDigit c) eqn:Ec; [|done]. destruct (isDigit d) eqn:Ed; [|done].
  simpl. intros [= <- <-].
  destruct (isDigit_inv _ Ea) as [Ha Hca], (isDigit_inv _ Eb) as [Hb Hcb],
           (isDigit_inv _ Ec) as [Hc Hcc], (isDigit_inv _ Ed) as [Hd Hcd].
  split; [lia|]. unfold fourDigits, twoDigits. rewrite !app_String, app_empty_l.
  set (y := ((digitVal a * 10 + digitVal b) * 10 + digitVal c) * 10 + digitVal d).
  replace (y / 1000) with (digitVal a) by (unfold y; div_lia).
  replace (y / 100 mod 10) with (digitVal b) by (unfold y; div_lia).
  replace (y mod 100 / 10) with (digitVal c) by (unfold y; div_lia).
  replace (y mod 100 mod 10) with (digitVal d) by (unfold y; div_lia).
  by rewrite <- Hca, <- Hcb, <- Hcc, <- Hcd.
Qed.

Lemma list_ascii_of_string_app (s t : string) :
  list_ascii_of_string (s +:+ t) = list_ascii_of_string s ++ list_ascii_of_string t.
Proof. induction s as [|c s IH]; [done|]. rewrite app_String. simpl. by rewrite IH. Qed.

Lemma list_ascii_of_string_inj (s t : string) :
  list_ascii_of_string s = list_ascii_of_string t → s = t.
Proof.
  intros H. rewrite <- (string_of_list_ascii_of_string s), H.
  apply string_of_list_ascii_of_string.
Qed.

Lemma skipDigits_inv (s : string) :
  ∃ ds : string,
    s = ds +:+ skipDigits s ∧ Forall (λ c, isDigit c = true) (list_ascii_of_string ds).
Proof.
  induction s as [|c s (ds & Hs & Hds)]; simpl.
  - by exists "".
  - destruct (isDigit c) eqn:E.
    + exists (String c ds). rewrite app_String, <- Hs. split; [done|].
      simpl. by constructor.
    + by exists "".
Qed.

Lemma skipFraction_inv (s : string) :
  ∃ F : string,
    s = F +:+ skipFraction s ∧
    (F = "" ∨
     ∃ (c : ascii) (ds : string),
       F = String c ds ∧ (c = "."%char ∨ c = ","%char) ∧ ds ≠ "" ∧
       Forall (λ c, isDigit c = true) (list_ascii_of_string ds)).
Proof.
  unfold skipFraction. destruct s as [|p [|d rest]]; try (exists ""; split; [done|by left]).
  destruct ((bool_decide (p = "."%char) || bool_decide (p = ","%char)) && isDigit d) eqn:E;
    [|exists ""; split; [done|by left]].
  apply andb_prop in E as [Hp Hd].
  destruct (skipDigits_inv rest) as (ds & Hs & Hds).
  exists (String p (String d ds)). rewrite !app_String, <- Hs. split; [done|].
  right. exists p, (String d ds). split; [done|]. split.
  - apply orb_prop in Hp as [Hp%bool_decide_eq_true | Hp%bool_decide_eq_true]; auto.
  - split; [done|]. simpl. by constructor.
Qed.

Lemma getzone_inv (s : string) (off : Z) :
  getzone s = Some (off, "") → s = "Z" ∨ String.length s = 6%nat.
Proof.
  unfold getzone. destruct s as [|sign rest]; [done|].
  case_bool_decide as Hz.
  { intros [= <- ->]. left. by subst sign. }
  destruct rest as [|h1 [|h2 [|colon [|m1 [|m2 rest]]]]]; try done.
  destruct (negb (bool_decide (colon = ":"%char))); [done|].
  destruct (getnum (String h1 (String h2 "")) true) as [[hr ?]|]; [|done].
  destruct (getnum (String m1 (String m2 "")) true) as [[mm ?]|]; [|done].
  simpl. destruct ((24 <? hr) || (60 <? mm)); [done|].
  repeat case_bool_decide; intros [= <- ->]; by right.
Qed.

(** The end of the value: after the minutes come [":00+02:00"] and nothing
    else, so the seconds are ["00"], there is no fraction, and the zone is
    ["+02:00"]. *)
Lemma value_tail (v P S2 F Z : list ascii) :
  v ++ list_ascii_of_string ":00+02:00" = P ++ [":"%char] ++ S2 ++ F ++ Z →
  length S2 = 2%nat →
  (F = [] ∨ ∃ c ds, F = c :: ds ∧ (c = "."%char ∨ c = ","%char) ∧ ds ≠ [] ∧
                    Forall (λ c, isDigit c = true) ds) →
  (Z = ["Z"%char] ∨ length Z = 6%nat) →
  v = P ∧ S2 = list_ascii_of_string "00" ∧ Z = list_ascii_of_string "+02:00".
Proof.
  intros Hw HS HF [-> | HZ].
  { exfalso.
    change (list_ascii_of_string ":00+02:00")
      with (list_ascii_of_string ":00+02:0" ++ ["0"%char]) in Hw.
    rewrite !app_assoc in Hw. by apply app_inj_tail in Hw as [_ ?]. }
  change (list_ascii_of_string ":00+02:00")
    with (list_ascii_of_string ":00" ++ list_ascii_of_string "+02:00") in Hw.
  rewrite !app_assoc in Hw. apply app_inj_2 in Hw as [Hw ->]; [|done].
  rewrite <- !app_assoc in Hw.
  destruct HF as [-> | (c & ds & -> & Hc & Hne & Hds)].
  - rewrite app_nil_r in Hw.
    change (list_ascii_of_string ":00") with ([":"%char] ++ list_ascii_of_string "00") in Hw.
    rewrite !app_assoc in Hw. apply app_inj_2 in Hw as [Hw <-]; [|done].
    by apply app_inj_tail in Hw as [? _].
  - exfalso.
    destruct (exists_last Hne) as (ds1 & x1 & ->).
    apply Forall_app in Hds as [Hds1 _].
    change (list_ascii_of_string ":00") with ([":"%char; "0"%char] ++ ["0"%char]) in Hw.
    replace (P ++ [":"%char] ++ S2 ++ c :: ds1 ++ [x1])
      with ((P ++ [":"%char] ++ S2 ++ c :: ds1) ++ [x1]) in Hw
      by (by rewrite <- !app_assoc).
    rewrite app_assoc in Hw. apply app_inj_tail in Hw as [Hw _].
    destruct ds1 as [|y ds1 _] using rev_ind.
    { change [":"%char; "0"%char] with ([":"%char] ++ ["0"%char]) in Hw.
      replace (P ++ [":"%char] ++ S2 ++ [c]) with ((P ++ [":"%char] ++ S2) ++ [c]) in Hw
        by (by rewrite <- !app_assoc).
      rewrite app_assoc in Hw. apply app_inj_tail in Hw as [_ <-].
      by destruct Hc. }
    apply Forall_app in Hds1 as [Hds2 _].
    change [":"%char; "0"%char] with ([":"%char] ++ ["0"%char]) in Hw.
    replace (P ++ [":"%char] ++ S2 ++ c :: ds1 ++ [y])
      with ((P ++ [":"%char] ++ S2 ++ c :: ds1) ++ [y]) in Hw
      by (by rewrite <- !app_assoc).
    rewrite app_assoc in Hw. apply app_inj_tail in Hw as [Hw _].
    destruct ds1 as [|z ds1 _] using rev_ind.
    { replace (P ++ [":"%char] ++ S2 ++ [c]) with ((P ++ [":"%char] ++ S2) ++ [c]) in Hw
        by (by rewrite <- !app_assoc).
      apply app_inj_tail in Hw as [_ <-]. by destruct Hc. }
    apply Forall_app in Hds2 as [_ Hz]. apply Forall_inv in Hz.
    replace (P ++ [":"%char] ++ S2 ++ c :: ds1 ++ [z])
      with ((P ++ [":"%char] ++ S2 ++ c :: ds1) ++ [z]) in Hw
      by (by rewrite <- !app_assoc).
    apply app_inj_tail in Hw as [_ <-]. done.
Qed.

Lemma digitChar_zero (d : Z) : 0 ≤ d ≤ 9 → digitChar d = "0"%char → d = 0.
Proof.
  intros H.
  assert (d = 0 ∨ d = 1 ∨ d = 2 ∨ d = 3 ∨ d = 4 ∨ d = 5 ∨ d = 6 ∨ d = 7 ∨ d = 8 ∨ d = 9)
    as Hd by lia.
  repeat (destruct Hd as [-> | Hd]); try subst d; by vm_compute.
Qed.

(** X3: [timeFieldToTimestamp] accepts the minute strings and nothing else,
    but for an hour written with one digit; the result is always the Unix
    time of the wall-clock minute at +02:00. *)
Theorem timeFieldToTimestamp_accepts_only_minutes (v : string) (t : Z) :
  timeFieldToTimestamp v = Ok t →
  ∃ year month day hour min : Z,
    0 ≤ year ≤ 9999 ∧ 1 ≤ month ≤ 12 ∧ 1 ≤ day ≤ daysIn month year ∧
    0 ≤ hour ≤ 23 ∧ 0 ≤ min ≤ 59 ∧
    (v = minuteString year month day hour min ∨
     (hour ≤ 9 ∧
      v = fourDigits year +:+ "-" +:+ twoDigits month +:+ "-" +:+ twoDigits day
          +:+ "T" +:+ String (digitChar hour) "" +:+ ":" +:+ twoDigits min)) ∧
    t = unixDate year month day hour min 0 - 2 * 3600.
Proof.
  unfold timeFieldToTimestamp.
  destruct (ParseRFC3339 (v +:+ ":00+02:00")) as [t'|] eqn:HP; [|done]. intros [= <-].
  unfold ParseRFC3339 in HP.
  destruct (getyear _) as [[year r1]|] eqn:E1; [|done]. cbn [mbind option_bind] in HP.
  destruct (skip r1 "-") as [r2|] eqn:E2; [|done]. cbn [mbind option_bind] in HP.
  destruct (getnum r2 true) as [[month r3]|] eqn:E3; [|done]. cbn [mbind option_bind] in HP.
  destruct ((month <=? 0) || (12 <? month)) eqn:Rmonth; [done|].
  destruct (skip r3 "-") as [r4|] eqn:E4; [|done]. cbn [mbind option_bind] in HP.
  destruct (getnum r4 true) as [[day r5]|] eqn:E5; [|done]. cbn [mbind option_bind] in HP.
  destruct (skip r5 "T") as [r6|] eqn:E6; [|done]. cbn [mbind option_bind] in HP.
  destruct (getnum r6 false) as [[hour r7]|] eqn:E7; [|done]. cbn [mbind option_bind] in HP.
  destruct (24 <=? hour) eqn:Rhour; [done|].
  destruct (skip r7 ":") as [r8|] eqn:E8; [|done]. cbn [mbind option_bind] in HP.
  destruct (getnum r8 true) as [[min r9]|] eqn:E9; [|done]. cbn [mbind option_bind] in HP.
  destruct (60 <=? min) eqn:Rmin; [done|].
  destruct (skip r9 ":") as [r10|] eqn:E10; [|done]. cbn [mbind option_bind] in HP.
  destruct (getnum r10 true) as [[sec r11]|] eqn:E11; [|done]. cbn [mbind option_bind] in HP.
  destruct (60 <=? sec) eqn:Rsec; [done|]. cbv zeta in HP.
  destruct (getzone (skipFraction r11)) as [[zoneOffset r12]|] eqn:E12; [|done].
  cbn [mbind option_bind] in HP.
  case_bool_decide as Hend; [|done]. subst r12. cbn [negb] in HP.
  destruct ((day <? 1) || (daysIn month year <? day)) eqn:Rday; [done|].
  injection HP as <-.
  apply getyear_inv in E1 as [Hyear E1]. apply skip_inv in E2.
  apply getnum_fixed_inv in E3 as [_ E3]. apply skip_inv in E4.
  apply getnum_fixed_inv in E5 as [_ E5]. apply skip_inv in E6.
  apply getnum_free_inv in E7 as [Hhour0 E7]. apply skip_inv in E8.
  apply getnum_fixed_inv in E9 as [Hmin0 E9]. apply skip_inv in E10.
  apply getnum_fixed_inv in E11 as [Hsec0 E11].
  destruct (skipFraction_inv r11) as (F & EF & HF).
  pose proof (getzone_inv _ _ E12) as HZ.
  apply orb_false_elim in Rmonth as [?%Z.leb_gt ?%Z.ltb_ge].
  apply orb_false_elim in Rday as [?%Z.ltb_ge ?%Z.ltb_ge].
  apply Z.leb_gt in Rhour, Rmin, Rsec.
  assert (∃ H : string, r6 = H +:+ r7 ∧
            (H = twoDigits hour ∨ (hour ≤ 9 ∧ H = String (digitChar hour) ""))) as
    (Hs & E7' & HH).
  { destruct E7 as [E7 | [? E7]].
    - exists (twoDigits hour). split; [done|by left].
    - exists (String (digitChar hour) ""). split; [done|]. right. by split. }
  clear E7. subst r1 r2 r3 r4 r5 r6 r7 r8 r9 r10.
  rewrite EF in E1. clear EF.
  apply (f_equal list_ascii_of_string) in E1.
  rewrite !list_ascii_of_string_app in E1.
  destruct (value_tail (list_ascii_of_string v)
              (list_ascii_of_string (fourDigits year) ++ list_ascii_of_string "-"
               ++ list_ascii_of_string (twoDigits month) ++ list_ascii_of_string "-"
               ++ list_ascii_of_string (twoDigits day) ++ list_ascii_of_string "T"
               ++ list_ascii_of_string Hs ++ list_ascii_of_string ":"
               ++ list_ascii_of_string (twoDigits min))
              (list_ascii_of_string (twoDigits sec))
              (list_ascii_of_string F)
              (list_ascii_of_string (skipFraction r11))) as (Hv & Hsec & Hzone).
  { rewrite E1. by rewrite <- !app_assoc. }
  { done. }
  { destruct HF as [-> | (c & ds & -> & Hc & Hne & Hds)]; [by left|].
    right. exists c, (list_ascii_of_string ds). repeat split; try done.
    by destruct ds. }
  { destruct HZ as [-> | HZ]; [by left|]. right.
    rewrite <- HZ. clear. induction (skipFraction r11); simpl; auto. }
  apply list_ascii_of_string_inj in Hzone. rewrite Hzone in E12.
  vm_compute in E12. injection E12 as <-.
  injection Hsec as Hs1 Hs2.
  apply digitChar_zero in Hs1, Hs2; [|div_lia..].
  assert (sec = 0) as -> by div_lia.
  exists year, month, day, hour, min.
  repeat (split; [lia|]). split; [|reflexivity].
  assert (v = fourDigits year +:+ "-" +:+ twoDigits month +:+ "-" +:+ twoDigits day
              +:+ "T" +:+ Hs +:+ ":" +:+ twoDigits min) as ->.
  { apply list_ascii_of_string_inj. by rewrite Hv, !list_ascii_of_string_app. }
  destruct HH as [-> | [? ->]]; [by left|]. right. by split.
Qed.

End TimeInversion.

Lemma timeFieldToTimestamp_accepts_only_minutes_witness :
  ∃ year month day hour min : Z,
    0 ≤ year ≤ 9999 ∧ 1 ≤ month ≤ 12 ∧ 1 ≤ day ≤ Time.daysIn month year ∧
    0 ≤ hour ≤ 23 ∧ 0 ≤ min ≤ 59 ∧
    ("2024-01-01T9:00" = minuteString year month day hour min ∨
     (hour ≤ 9 ∧
      "2024-01-01T9:00"
      = fourDigits year +:+ "-" +:+ twoDigits month +:+ "-" +:+ twoDigits day
        +:+ "T" +:+ String (digitChar hour) "" +:+ ":" +:+ twoDigits min)) ∧
    1704092400 = Time.unixDate year month day hour min 0 - 2 * 3600.
Proof.
  apply (timeFieldToTimestamp_accepts_only_minutes "2024-01-01T9:00" 1704092400).
  vm_compute; reflexivity.
Defined.

(** ** Query building *)

Section QueryFacts.
Import Strings Http.
Context (Sprintf : string → list string → string).
Context {Rows result : Type}.
Context (pivot : Rows → outcome result).
Context (csv : result → ResponseWriter → ResponseWriter * option error).
Implicit Types fe : @Frontend Rows.
Implicit Types fields : Values.

Lemma rangeOrder_elem fields (order : list string) (k : string) :
  rangeOrder fields order → k ∈ order ↔ is_Some (fields !! k).
Proof.
  intros [_ H]. rewrite <- elem_of_dom, <- H. by rewrite elem_of_list_to_set.
Qed.

Lemma values_Some fields (k : string) (vs : list string) :
  fields !! k = Some vs → values fields k = vs.
Proof. unfold values. by intros ->. Qed.

Lemma values_None fields (k : string) : fields !! k = None → values fields k = [].
Proof. unfold values. by intros ->. Qed.

Lemma fieldsToQuery_no_breakdown fe fields order :
  fields !! "breakdown" = None →
  fieldsToQuery Sprintf fe fields order = Err (Errorf "No breakdown set").
Proof. intros H. unfold fieldsToQuery. by rewrite decide_True. Qed.

Lemma fieldsToQuery_no_start fe fields order :
  is_Some (fields !! "breakdown") → fields !! "time_start" = None →
  fieldsToQuery Sprintf fe fields order = Err (Errorf "No start time given").
Proof.
  intros [b Hb] H. unfold fieldsToQuery.
  rewrite decide_False by congruence. by rewrite decide_True.
Qed.

Lemma fieldsToQuery_no_end fe fields order :
  is_Some (fields !! "breakdown") → is_Some (fields !! "time_start") →
  fields !! "time_end" = None →
  fieldsToQuery Sprintf fe fields order = Err (Errorf "No end time given").
Proof.
  intros [b Hb] [s Hs] H. unfold fieldsToQuery.
  rewrite !decide_False by congruence. by rewrite decide_True.
Qed.

Lemma fieldsToQuery_bad_start fe fields order (v : string) (vs : list string) (e : error) :
  is_Some (fields !! "breakdown") → fields !! "time_start" = Some (v :: vs) →
  is_Some (fields !! "time_end") → timeFieldToTimestamp v = Err e →
  fieldsToQuery Sprintf fe fields order = Err (Wrap e "Unable to parse time").
Proof.
  intros [b Hb] Hs [t Ht] Hv. unfold fieldsToQuery.
  rewrite !decide_False by congruence.
  rewrite (values_Some _ _ _ Hs). simpl. by rewrite Hv.
Qed.

Lemma fieldsToQuery_bad_end fe fields order (s v : string) (ss vs : list string)
    (start : Z) (e : error) :
  is_Some (fields !! "breakdown") → fields !! "time_start" = Some (s :: ss) →
  timeFieldToTimestamp s = Ok start →
  fields !! "time_end" = Some (v :: vs) → timeFieldToTimestamp v = Err e →
  fieldsToQuery Sprintf fe fields order = Err (Wrap e "Unable to parse time").
Proof.
  intros [b Hb] Hs Hst Ht Hv. unfold fieldsToQuery.
  rewrite !decide_False by congruence.
  rewrite (values_Some _ _ _ Hs), (values_Some _ _ _ Ht). simpl.
  rewrite Hst. simpl. by rewrite Hv.
Qed.

(** A request whose times parse gets its statement. *)
Lemma fieldsToQuery_Ok fe fields order (breakdown ss es : list string) (s e : string)
    (start end_ : Z) :
  fields !! "breakdown" = Some breakdown →
  fields !! "time_start" = Some (s :: ss) → timeFieldToTimestamp s = Ok start →
  fields !! "time_end" = Some (e :: es) → timeFieldToTimestamp e = Ok end_ →
  fieldsToQuery Sprintf fe fields order
  = Ok ("SELECT " +:+ Join (selectFieldList Sprintf fe breakdown) ", "
        +:+ " FROM " +:+ ClickHouseGateway.GetDatabaseName (chgw fe) +:+ ".flows"
        +:+ " WHERE " +:+ Join (conditions Sprintf fe fields order start end_) " AND "
        +:+ " GROUP BY " +:+ Join ("t" :: breakdown) ", "
        +:+ " ORDER BY t").
Proof.
  intros Hb Hs Hst He Hen. unfold fieldsToQuery, groupBy.
  rewrite !decide_False by congruence.
  rewrite (values_Some _ _ _ Hs), (values_Some _ _ _ He), (values_Some _ _ _ Hb). simpl.
  rewrite Hst. simpl. by rewrite Hen.
Qed.

Lemma QueryHandler_query_error fe fields order (e : error) (w : ResponseWriter) :
  is_Some (fields !! "breakdown") →
  fieldsToQuery Sprintf fe fields order = Err e →
  QueryHandler Sprintf pivot csv fe fields order w
  = Some (WriteHeader StatusInternalServerError w).
Proof.
  intros [b Hb] He. unfold QueryHandler, processQuery.
  rewrite decide_False; [by rewrite He|].
  intros H0%map_size_empty_iff. by rewrite H0, lookup_empty in Hb.
Qed.

(** The filter loop reaches every key of the range. *)
Lemma filterConditions_elem fe fields order (name statement : string) :
  name ∈ order → notFilter name = false →
  resolveDictIfNecessary Sprintf fe (resolveVirtualField name) = Ok statement →
  condition statement (values fields (resolveVirtualField name))
  ∈ filterConditions Sprintf fe fields order.
Proof.
  intros Hin Hnf Hres. induction order as [|k order IH]; [by apply elem_of_nil in Hin|].
  apply elem_of_cons in Hin as [<- | Hin]; simpl.
  - rewrite Hnf, Hres. by left.
  - specialize (IH Hin). destruct (notFilter k); [done|].
    destruct (resolveDictIfNecessary Sprintf fe (resolveVirtualField k));
      [by right|done..].
Qed.

Lemma filterConditions_app fe fields (order1 order2 : list string) :
  filterConditions Sprintf fe fields (order1 ++ order2)%list
  = (filterConditions Sprintf fe fields order1
     ++ filterConditions Sprintf fe fields order2)%list.
Proof.
  induction order1 as [|k order1 IH]; [done|]. cbn [app filterConditions].
  destruct (notFilter k); [done|].
  destruct (resolveDictIfNecessary Sprintf fe (resolveVirtualField k)); [|done..].
  by rewrite IH.
Qed.

(** No resolved name is the name of a virtual field. *)
Lemma resolveVirtualField_not_virtual (k : string) :
  resolveVirtualField k ≠ "src_ip_pfx" ∧ resolveVirtualField k ≠ "dst_ip_pfx".
Proof. unfold resolveVirtualField. repeat case_decide; split; congruence. Qed.

(** The filter loop never reads the values of [src_ip_pfx] and
    [dst_ip_pfx]. *)
Lemma filterConditions_virtual_values fe (fields1 fields2 : Values) (order : list string) :
  (∀ k, k ≠ "src_ip_pfx" → k ≠ "dst_ip_pfx" → fields1 !! k = fields2 !! k) →
  filterConditions Sprintf fe fields1 order = filterConditions Sprintf fe fields2 order.
Proof.
  intros Hag. induction order as [|k order IH]; [done|]. cbn [filterConditions].
  destruct (notFilter k); [done|].
  destruct (resolveDictIfNecessary Sprintf fe (resolveVirtualField k)); [|done..].
  rewrite IH. unfold values.
  by rewrite (Hag _ (proj1 (resolveVirtualField_not_virtual k))
                    (proj2 (resolveVirtualField_not_virtual k))).
Qed.

Lemma fieldsToQuery_virtual_values fe (fields1 fields2 : Values) (order : list string) :
  (∀ k, k ≠ "src_ip_pfx" → k ≠ "dst_ip_pfx" → fields1 !! k = fields2 !! k) →
  fieldsToQuery Sprintf fe fields1 order = fieldsToQuery Sprintf fe fields2 order.
Proof.
  intros Hag. unfold fieldsToQuery, conditions, groupBy, values.
  rewrite <- !(Hag "breakdown"), <- !(Hag "time_start"), <- !(Hag "time_end") by done.
  by rewrite (filterConditions_virtual_values fe fields1 fields2 order Hag).
Qed.

End QueryFacts.

(** ** The claims about the query endpoint *)

Section QueryClaims.
Import Strings Http.
Context (Sprintf : string → list string → string).
Context {Rows result : Type}.
Context (pivot : Rows → outcome result).
Context (csv : result → ResponseWriter → ResponseWriter * option error).
Implicit Types fe : @Frontend Rows.
Implicit Types fields : Values.

(** C1 (as amended): for a request with an empty query string
    [processQuery] returns neither a result nor an error, and the handler's
    guard on the nil result answers 500 with no body. *)
Theorem QueryHandler_empty_query fe (order : list string) :
  processQuery Sprintf pivot fe ∅ order = Ok None ∧
  response <$> QueryHandler Sprintf pivot csv fe ∅ order newWriter
  = Some (StatusInternalServerError, "").
Proof. split; reflexivity. Qed.

(** C8: [fieldsToQuery] checks the breakdown list first, then the start
    time, then the end time, then parses the two time strings; each check
    returns its own error and no statement. *)
Theorem fieldsToQuery_validation_order fe fields (order : list string) :
  (fields !! "breakdown" = None →
   fieldsToQuery Sprintf fe fields order = Err (Errorf "No breakdown set")) ∧
  (is_Some (fields !! "breakdown") → fields !! "time_start" = None →
   fieldsToQuery Sprintf fe fields order = Err (Errorf "No start time given")) ∧
  (is_Some (fields !! "breakdown") → is_Some (fields !! "time_start") →
   fields !! "time_end" = None →
   fieldsToQuery Sprintf fe fields order = Err (Errorf "No end time given")) ∧
  (∀ (v : string) (vs : list string) (e : error),
     is_Some (fields !! "breakdown") → fields !! "time_start" = Some (v :: vs) →
     is_Some (fields !! "time_end") → timeFieldToTimestamp v = Err e →
     fieldsToQuery Sprintf fe fields order = Err (Wrap e "Unable to parse time")) ∧
  (∀ (s v : string) (ss vs : list string) (start : Z) (e : error),
     is_Some (fields !! "breakdown") → fields !! "time_start" = Some (s :: ss) →
     timeFieldToTimestamp s = Ok start →
     fields !! "time_end" = Some (v :: vs) → timeFieldToTimestamp v = Err e →
     fieldsToQuery Sprintf fe fields order = Err (Wrap e "Unable to parse time")) ∧
  (Errorf "No breakdown set" ≠ Errorf "No start time given"
   ∧ Errorf "No breakdown set" ≠ Errorf "No end time given"
   ∧ Errorf "No start time given" ≠ Errorf "No end time given"
   ∧ ∀ (e : error) (msg : string), Wrap e "Unable to parse time" ≠ Errorf msg).
Proof.
  split; [apply fieldsToQuery_no_breakdown|].
  split; [apply fieldsToQuery_no_start|].
  split; [apply fieldsToQuery_no_end|].
  split; [intros; by eapply fieldsToQuery_bad_start|].
  split; [intros; by eapply fieldsToQuery_bad_end|].
  repeat split; discriminate.
Qed.

(** C6: a time string [YYYY-MM-DDTHH:MM] of a calendar minute is read at the
    offset +02:00, so its Unix time is that of the same wall-clock minute in
    UTC less two hours; a string that does not parse makes
    [timeFieldToTimestamp] return an error, [fieldsToQuery] fail and the
    handler answer 500. *)
Theorem timeFieldToTimestamp_fixed_offset :
  (∀ year month day hour min : Z,
     0 ≤ year ≤ 9999 → 1 ≤ month ≤ 12 → 1 ≤ day ≤ Time.daysIn month year →
     0 ≤ hour ≤ 23 → 0 ≤ min ≤ 59 →
     timeFieldToTimestamp (minuteString year month day hour min)
     = Ok (Time.unixDate year month day hour min 0 - 2 * 3600)) ∧
  (∀ v : string,
     Time.ParseRFC3339 (v +:+ ":00+02:00") = None →
     (∃ e, timeFieldToTimestamp v = Err e) ∧
     (∀ fe fields (order vs : list string),
        is_Some (fields !! "breakdown") → fields !! "time_start" = Some (v :: vs) →
        is_Some (fields !! "time_end") →
        (∃ e, fieldsToQuery Sprintf fe fields order = Err e) ∧
        response <$> QueryHandler Sprintf pivot csv fe fields order newWriter
        = Some (StatusInternalServerError, "")) ∧
     (∀ fe fields (order ss vs : list string) (s : string) (start : Z),
        is_Some (fields !! "breakdown") → fields !! "time_start" = Some (s :: ss) →
        timeFieldToTimestamp s = Ok start → fields !! "time_end" = Some (v :: vs) →
        (∃ e, fieldsToQuery Sprintf fe fields order = Err e) ∧
        response <$> QueryHandler Sprintf pivot csv fe fields order newWriter
        = Some (StatusInternalServerError, ""))).
Proof.
  split; [apply timeFieldToTimestamp_minuteString|].
  intros v Hv. pose proof (timeFieldToTimestamp_unparsable v Hv) as He.
  split; [by eexists|]. split.
  - intros fe fields order vs Hb Hs Ht.
    pose proof (fieldsToQuery_bad_start Sprintf fe fields order _ _ _ Hb Hs Ht He) as Hq.
    split; [by eexists|].
    by rewrite (QueryHandler_query_error Sprintf pivot csv fe fields order _ _ Hb Hq).
  - intros fe fields order ss vs s start Hb Hs Hst Ht.
    pose proof (fieldsToQuery_bad_end Sprintf fe fields order _ _ _ _ _ _ Hb Hs Hst Ht He)
      as Hq.
    split; [by eexists|].
    by rewrite (QueryHandler_query_error Sprintf pivot csv fe fields order _ _ Hb Hq).
Qed.

(** C10 (as amended): a filter parameter named [src_ip_pfx] or [dst_ip_pfx]
    has its values looked up under the resolved SQL expression.  The
    condition the loop appends for it, at its place in the range, is built
    from the values [found] under that expression: [<expr> IN ()] when the
    request has no parameter of that name, whatever the parameter itself
    carries.  The parameter's own values never reach the conditions or the
    statement: replacing them changes neither. *)
Theorem virtual_filter_empty_membership fe fields (order vs : list string)
    (name : string) (start end_ : Z) :
  rangeOrder fields order →
  name = "src_ip_pfx" ∨ name = "dst_ip_pfx" →
  fields !! name = Some vs →
  let expr := resolveVirtualField name in
  let found := values fields expr in
  let predicate :=
    if decide (length found = 1%nat)
    then expr +:+ " = '" +:+ hd "" found +:+ "'"
    else expr +:+ " IN (" +:+ Join (map (λ v, "'" +:+ v +:+ "'") found) ", " +:+ ")" in
  name ∈ order ∧
  (∀ before after : list string,
     order = (before ++ name :: after)%list →
     conditions Sprintf fe fields order start end_
     = (conditions Sprintf fe fields before start end_
        ++ predicate :: filterConditions Sprintf fe fields after)%list) ∧
  (fields !! expr = None → predicate = expr +:+ " IN ()") ∧
  (∀ (vs' order' : list string),
     conditions Sprintf fe (<[name := vs']> fields) order' start end_
     = conditions Sprintf fe fields order' start end_ ∧
     fieldsToQuery Sprintf fe (<[name := vs']> fields) order'
     = fieldsToQuery Sprintf fe fields order').
Proof.
  intros Ho Hn Hvs. cbv zeta.
  assert (notFilter name = false) as Hnf by (by destruct Hn as [-> | ->]).
  assert (resolveDictIfNecessary Sprintf fe (resolveVirtualField name)
          = Ok (resolveVirtualField name)) as Hres.
  { apply resolveDictIfNecessary_plain. by destruct Hn as [-> | ->]. }
  split; [apply (rangeOrder_elem _ _ _ Ho); by eexists|]. split; [|split].
  - intros before after ->. unfold conditions.
    rewrite filterConditions_app. cbn [filterConditions app].
    by rewrite Hnf, Hres.
  - intros Hnone. by rewrite (values_None _ _ Hnone).
  - intros vs' order'.
    assert (∀ k, k ≠ "src_ip_pfx" → k ≠ "dst_ip_pfx" →
                 <[name := vs']> fields !! k = fields !! k) as Hag.
    { intros k H1 H2. apply lookup_insert_ne. by destruct Hn as [-> | ->]. }
    split.
    + unfold conditions.
      by rewrite (filterConditions_virtual_values Sprintf fe _ _ order' Hag).
    + by apply fieldsToQuery_virtual_values.
Qed.

End QueryClaims.

(** C1, as stated, fails: the empty query string is answered with 500. *)
Lemma QueryHandler_empty_query_not_200 :
  Http.response
    <$> QueryHandler SprintfStrings examplePivot exampleCsv exampleFrontend ∅ [] Http.newWriter
  = Some (500, "") ∧ 500 ≠ Http.StatusOK.
Proof. split; [reflexivity | discriminate]. Qed.

(** C2 at the request [requestUnresolved]: [foo__bar] has no binding and is
    left out of the select list, yet the statement groups by it. *)
Theorem fieldsToQuery_groups_by_unresolved_field :
  resolveDictIfNecessary SprintfStrings exampleFrontend (resolveVirtualField "foo__bar")
  = Err (Errorf "Dict for field foo__bar not found") ∧
  selectFieldList SprintfStrings exampleFrontend ["src_asn"; "foo__bar"]
  = ["timestamp as t"; "src_asn as src_asn"; "sum(size * samplerate) * 8 / 10"] ∧
  groupBy requestUnresolved = ["t"; "src_asn"; "foo__bar"] ∧
  fieldsToQuery SprintfStrings exampleFrontend requestUnresolved
    ["breakdown"; "time_start"; "time_end"]
  = Ok ("SELECT timestamp as t, src_asn as src_asn, sum(size * samplerate) * 8 / 10"
        +:+ " FROM flowhouse.flows"
        +:+ " WHERE t BETWEEN toDateTime(1704096000) AND toDateTime(1704099600)"
        +:+ " GROUP BY t, src_asn, foo__bar ORDER BY t").
Proof. repeat split; vm_compute; reflexivity. Qed.

(** C4 at the request [requestVirtualFilter]: the one value of [src_ip_pfx]
    is not found, and the condition is an empty membership test. *)
Theorem fieldsToQuery_virtual_filter_loses_value :
  rangeOrder requestVirtualFilter ["src_ip_pfx"; "breakdown"; "time_start"; "time_end"] ∧
  requestVirtualFilter !! "src_ip_pfx" = Some ["10.0.0.0/8"] ∧
  fieldsToQuery SprintfStrings exampleFrontend requestVirtualFilter
    ["src_ip_pfx"; "breakdown"; "time_start"; "time_end"]
  = Ok ("SELECT timestamp as t, src_asn as src_asn, sum(size * samplerate) * 8 / 10"
        +:+ " FROM flowhouse.flows"
        +:+ " WHERE t BETWEEN toDateTime(1704096000) AND toDateTime(1704099600)"
        +:+ " AND concat(IPv6NumToString(src_ip_pfx_addr), '/', toString(src_ip_pfx_len)) IN ()"
        +:+ " GROUP BY t, src_asn ORDER BY t").
Proof.
  split; [split; compute_done|].
  split; vm_compute; reflexivity.
Qed.

(** C10, as stated, fails when the request also has a parameter named by the
    resolved expression: its value is found, twice, and no condition is an
    empty membership test. *)
Lemma virtual_filter_finds_shadowing_parameter :
  rangeOrder requestShadowed
    ["src_ip_pfx"; resolveVirtualField "src_ip_pfx"; "breakdown"; "time_start"; "time_end"] ∧
  requestShadowed !! "src_ip_pfx" = Some ["10.0.0.0/8"] ∧
  filterConditions SprintfStrings exampleFrontend requestShadowed
    ["src_ip_pfx"; resolveVirtualField "src_ip_pfx"; "breakdown"; "time_start"; "time_end"]
  = [ "concat(IPv6NumToString(src_ip_pfx_addr), '/', toString(src_ip_pfx_len)) = 'x'";
      "concat(IPv6NumToString(src_ip_pfx_addr), '/', toString(src_ip_pfx_len)) = 'x'" ] ∧
  "concat(IPv6NumToString(src_ip_pfx_addr), '/', toString(src_ip_pfx_len)) = 'x'"
  ≠ resolveVirtualField "src_ip_pfx" +:+ " IN ()".
Proof.
  split; [split; compute_done|].
  split; [vm_compute; reflexivity|].
  split; [vm_compute; reflexivity|].
  vm_compute. discriminate.
Qed.

Lemma virtual_filter_empty_membership_witness :
  conditions SprintfStrings exampleFrontend requestVirtualFilter
    ["src_ip_pfx"; "breakdown"; "time_start"; "time_end"] 1704096000 1704099600
  = [ "t BETWEEN toDateTime(1704096000) AND toDateTime(1704099600)";
      "concat(IPv6NumToString(src_ip_pfx_addr), '/', toString(src_ip_pfx_len)) IN ()" ]
  ∧ fieldsToQuery SprintfStrings exampleFrontend
      (<[ "src_ip_pfx" := ["192.0.2.0/24"; "198.51.100.0/24"] ]> requestVirtualFilter)
      ["src_ip_pfx"; "breakdown"; "time_start"; "time_end"]
    = fieldsToQuery SprintfStrings exampleFrontend requestVirtualFilter
        ["src_ip_pfx"; "breakdown"; "time_start"; "time_end"].
Proof.
  pose proof (virtual_filter_empty_membership SprintfStrings exampleFrontend
                requestVirtualFilter
                ["src_ip_pfx"; "breakdown"; "time_start"; "time_end"] ["10.0.0.0/8"]
                "src_ip_pfx" 1704096000 1704099600
                ltac:(split; compute_done) ltac:(left; reflexivity)
                ltac:(vm_compute; reflexivity)) as H.
  cbv zeta in H. destruct H as (_ & Hat & _ & Hinv). split.
  - exact (Hat [] ["breakdown"; "time_start"; "time_end"] eq_refl).
  - exact (proj2 (Hinv ["192.0.2.0/24"; "198.51.100.0/24"]
                       ["src_ip_pfx"; "breakdown"; "time_start"; "time_end"])).
Defined.

Lemma fieldsToQuery_validation_order_witness :
  fieldsToQuery SprintfStrings exampleFrontend ∅ [] = Err (Errorf "No breakdown set") ∧
  fieldsToQuery SprintfStrings exampleFrontend {[ "breakdown" := ["src_asn"] ]} ["breakdown"]
  = Err (Errorf "No start time given") ∧
  fieldsToQuery SprintfStrings exampleFrontend
    {[ "breakdown" := ["src_asn"]; "time_start" := ["2024-01-01T10:00"] ]}
    ["breakdown"; "time_start"]
  = Err (Errorf "No end time given") ∧
  fieldsToQuery SprintfStrings exampleFrontend
    {[ "breakdown" := ["src_asn"]; "time_start" := ["yesterday"];
       "time_end" := ["2024-01-01T11:00"] ]}
    ["breakdown"; "time_start"; "time_end"]
  = Err (Wrap (WrapUnableToParse (ParseError "yesterday:00+02:00") "yesterday:00+02:00")
           "Unable to parse time").
Proof.
  split; [|split; [|split]].
  - apply (proj1 (fieldsToQuery_validation_order SprintfStrings exampleFrontend ∅ [])).
    vm_compute; reflexivity.
  - apply (proj1 (proj2 (fieldsToQuery_validation_order SprintfStrings exampleFrontend
                           {[ "breakdown" := ["src_asn"] ]} ["breakdown"]))).
    + by eexists.
    + vm_compute; reflexivity.
  - apply (proj1 (proj2 (proj2 (fieldsToQuery_validation_order SprintfStrings exampleFrontend
             {[ "breakdown" := ["src_asn"]; "time_start" := ["2024-01-01T10:00"] ]}
             ["breakdown"; "time_start"])))).
    + by eexists.
    + by eexists.
    + vm_compute; reflexivity.
  - apply (proj1 (proj2 (proj2 (proj2 (fieldsToQuery_validation_order SprintfStrings
             exampleFrontend
             {[ "breakdown" := ["src_asn"]; "time_start" := ["yesterday"];
                "time_end" := ["2024-01-01T11:00"] ]}
             ["breakdown"; "time_start"; "time_end"])))) "yesterday" []).
    + by eexists.
    + vm_compute; reflexivity.
    + by eexists.
    + vm_compute; reflexivity.
Defined.

Lemma timeFieldToTimestamp_fixed_offset_witness :
  timeFieldToTimestamp "2024-01-01T10:00" = Ok 1704096000 ∧
  (∃ e, timeFieldToTimestamp "yesterday" = Err e).
Proof.
  split.
  - apply (proj1 (timeFieldToTimestamp_fixed_offset SprintfStrings examplePivot exampleCsv)
             2024 1 1 10 0); vm_compute; split; discriminate.
  - apply (proj2 (timeFieldToTimestamp_fixed_offset SprintfStrings examplePivot exampleCsv)
             "yesterday"). vm_compute; reflexivity.
Defined.

(** ** The dictionary-values endpoint *)

Section DictValuesFacts.
Import Strings Http.
Context {Rows : Type}.
Context (json_Marshal : list string → outcome string).
Implicit Types fe : @Frontend Rows.

Lemma sortSlice_Sorted (res : list string) : Sorted String.le (sortSlice res).
Proof. apply (Sorted_merge_sort String.le). Qed.

Lemma sortSlice_Permutation (res : list string) : sortSlice res ≡ₚ res.
Proof. apply merge_sort_Permutation. Qed.

(** Whatever [sort.Slice] does with equal strings, its result is this one. *)
Lemma sortSlice_unique (res sorted : list string) :
  Sorted String.le sorted → sorted ≡ₚ res → sorted = sortSlice res.
Proof.
  intros Hs Hp. apply (Sorted_unique String.le); [done|apply sortSlice_Sorted|].
  by rewrite Hp, sortSlice_Permutation.
Qed.

Lemma getFieldsDictName_getDict (d : Dicts) (fieldName : string) :
  getFieldsDictName d fieldName = from_option Dict.Dict "" (getDict d fieldName).
Proof. induction d as [|x d IH]; simpl; [done|]. by case_decide. Qed.

Lemma getDict_unknown (d : Dicts) (fieldName : string) :
  (∀ x, x ∈ d → Dict.Field x ≠ fieldName) → getDict d fieldName = None.
Proof.
  induction d as [|x d IH]; simpl; [done|]. intros H.
  rewrite decide_False by (apply H; by left). apply IH. intros y Hy. apply H. by right.
Qed.

(** C7 (as amended): a path that does not split into three parts, a last
    part that is not [field__column], a field without a binding, or a binding
    without a dictionary name is answered with 400; a backend failure with
    500; otherwise the body is [json.Marshal] of the backend's non-empty
    values in ascending order, duplicates included. *)
Theorem GetDictValues_response fe (path : string) :
  (length (Split path "/") ≠ 3%nat →
   response <$> GetDictValues json_Marshal fe path newWriter = Some (StatusBadRequest, "")) ∧
  (∀ p0 p1 p2 : string, Split path "/" = [p0; p1; p2] →
     (length (Split p2 "__") ≠ 2%nat →
      response <$> GetDictValues json_Marshal fe path newWriter
      = Some (StatusBadRequest, "")) ∧
     (∀ fieldName column : string, Split p2 "__" = [fieldName; column] →
        ((∀ x, x ∈ dictCfgs fe → Dict.Field x ≠ fieldName) →
         response <$> GetDictValues json_Marshal fe path newWriter
         = Some (StatusBadRequest, "")) ∧
        (∀ d : Dict.t, getDict (dictCfgs fe) fieldName = Some d →
           (Dict.Dict d = "" →
            response <$> GetDictValues json_Marshal fe path newWriter
            = Some (StatusBadRequest, "")) ∧
           (Dict.Dict d ≠ "" →
              (∀ e : error,
                 ClickHouseGateway.GetDictValues (chgw fe) (Dict.Dict d) column = Err e →
                 response <$> GetDictValues json_Marshal fe path newWriter
                 = Some (StatusInternalServerError, "")) ∧
              (∀ (vs : list string) (j : string),
                 ClickHouseGateway.GetDictValues (chgw fe) (Dict.Dict d) column = Ok vs →
                 json_Marshal (sortSlice (filter (λ v, v ≠ "") vs)) = Ok j →
                 response <$> GetDictValues json_Marshal fe path newWriter
                 = Some (StatusOK, j)
                 ∧ Sorted String.le (sortSlice (filter (λ v, v ≠ "") vs))
                 ∧ sortSlice (filter (λ v, v ≠ "") vs) ≡ₚ filter (λ v, v ≠ "") vs
                 ∧ ∀ v, v ∈ sortSlice (filter (λ v, v ≠ "") vs) ↔ v ∈ vs ∧ v ≠ ""))))).
Proof.
  split.
  { intros Hlen. unfold GetDictValues.
    destruct (Split path "/") as [|? [|? [|? [|? ?]]]]; done. }
  intros p0 p1 p2 Hp. unfold GetDictValues. rewrite Hp. split.
  { intros Hlen. unfold parseDictValueRequest.
    destruct (Split p2 "__") as [|? [|? [|? ?]]]; done. }
  intros fieldName column Hf. unfold parseDictValueRequest. rewrite Hf.
  rewrite getFieldsDictName_getDict. split.
  { intros Hu. by rewrite (getDict_unknown _ _ Hu). }
  intros d ->. simpl. split.
  { intros ->. done. }
  intros Hd. rewrite decide_False by done. split.
  { by intros e ->. }
  intros vs j -> ->. split; [done|]. split; [apply sortSlice_Sorted|].
  split; [apply sortSlice_Permutation|].
  intros v. rewrite sortSlice_Permutation, list_elem_of_filter. tauto.
Qed.

End DictValuesFacts.

(** C7, as stated, fails on a backend that returns a value twice: both
    copies are in the body. *)
Lemma GetDictValues_keeps_duplicates :
  ClickHouseGateway.GetDictValues exampleGateway "asns" "name" = Ok ["b"; ""; "a"; "b"] ∧
  Http.response <$> GetDictValues jsonPlain exampleFrontend "/dicts/src_asn__name" Http.newWriter
  = Some (200, jsonPlainText ["a"; "b"; "b"]) ∧
  ¬ NoDup ["a"; "b"; "b"].
Proof.
  split; [reflexivity|]. split; [vm_compute; reflexivity|].
  intros H. apply NoDup_cons in H as [_ H]. apply NoDup_cons in H as [H _].
  apply H. by left.
Qed.

Lemma GetDictValues_response_witness :
  Http.response <$> GetDictValues jsonPlain exampleFrontend "/dicts/src_asn__name" Http.newWriter
  = Some (Http.StatusOK, jsonPlainText ["a"; "b"; "b"]) ∧
  Http.response <$> GetDictValues jsonPlain exampleFrontend "/dicts/dst_port__name" Http.newWriter
  = Some (Http.StatusBadRequest, "") ∧
  Http.response <$> GetDictValues jsonPlain exampleFrontend "/dicts/src_asn__name/x" Http.newWriter
  = Some (Http.StatusBadRequest, "").
Proof.
  split; [|split].
  - apply (proj2 (proj2 (proj2 (proj2 (proj2
             (GetDictValues_response jsonPlain exampleFrontend "/dicts/src_asn__name")
             "" "dicts" "src_asn__name" eq_refl) "src_asn" "name" eq_refl)
             {| Dict.Field := "src_asn"; Dict.Dict := "asns"; Dict.Expr := "toUInt64(%s)";
                Dict.Keys := [] |} eq_refl) ltac:(discriminate))
             ["b"; ""; "a"; "b"] (jsonPlainText ["a"; "b"; "b"]));
      vm_compute; reflexivity.
  - apply (proj1 (proj2 (proj2
             (GetDictValues_response jsonPlain exampleFrontend "/dicts/dst_port__name")
             "" "dicts" "dst_port__name" eq_refl) "dst_port" "name" eq_refl)).
    intros x Hx. repeat (apply elem_of_cons in Hx as [-> | Hx]; [discriminate|]).
    by apply elem_of_nil in Hx.
  - apply (proj1 (GetDictValues_response jsonPlain exampleFrontend "/dicts/src_asn__name/x")).
    vm_compute. discriminate.
Defined.

(** ** Further properties of the query builder *)

Section QueryExtras.
Import Strings Http.
Context (Sprintf : string → list string → string).
Context {Rows : Type}.
Implicit Types fe : @Frontend Rows.
Implicit Types fields : Values.

Lemma selectBreakdown_elem fe (breakdown : list string) (x : string) :
  x ∈ selectBreakdown Sprintf fe breakdown ↔
  ∃ name statement : string,
    name ∈ breakdown ∧
    resolveDictIfNecessary Sprintf fe (resolveVirtualField name) = Ok statement ∧
    x = statement +:+ " as " +:+ name.
Proof.
  induction breakdown as [|f breakdown IH]; simpl.
  - split; [by intros ?%elem_of_nil|]. by intros (? & ? & ?%elem_of_nil & _).
  - destruct (resolveDictIfNecessary Sprintf fe (resolveVirtualField f)) as [st| |] eqn:E.
    + rewrite elem_of_cons, IH. split.
      * intros [-> | (name & statement & Hin & Hres & ->)].
        -- exists f, st. split; [by left|done].
        -- exists name, statement. split; [by right|done].
      * intros (name & statement & Hin & Hres & ->).
        apply elem_of_cons in Hin as [-> | Hin].
        -- left. congruence.
        -- right. by exists name, statement.
    + rewrite IH. split.
      * intros (name & statement & Hin & Hres & ->).
        exists name, statement. split; [by right|done].
      * intros (name & statement & Hin & Hres & ->).
        apply elem_of_cons in Hin as [-> | Hin]; [congruence|].
        by exists name, statement.
    + rewrite IH. split.
      * intros (name & statement & Hin & Hres & ->).
        exists name, statement. split; [by right|done].
      * intros (name & statement & Hin & Hres & ->).
        apply elem_of_cons in Hin as [-> | Hin]; [congruence|].
        by exists name, statement.
Qed.

(** X1: a filter parameter that is not a virtual field and resolves gets an
    equality on its one value, or a membership test on its several values. *)
Theorem plain_filter_condition fe fields (order vs : list string)
    (name statement : string) (start end_ : Z) :
  rangeOrder fields order →
  fields !! name = Some vs →
  notFilter name = false →
  name ≠ "src_ip_pfx" → name ≠ "dst_ip_pfx" →
  resolveDictIfNecessary Sprintf fe name = Ok statement →
  (∀ v : string, vs = [v] →
     statement +:+ " = '" +:+ v +:+ "'" ∈ conditions Sprintf fe fields order start end_) ∧
  ((1 < length vs)%nat →
     statement +:+ " IN (" +:+ Join (map (λ v, "'" +:+ v +:+ "'") vs) ", " +:+ ")"
     ∈ conditions Sprintf fe fields order start end_).
Proof.
  intros Ho Hvs Hnf H1 H2 Hres.
  assert (name ∈ order) as Hin by (apply (rangeOrder_elem _ _ _ Ho); by eexists).
  pose proof (filterConditions_elem Sprintf fe fields order name statement Hin Hnf) as H.
  rewrite (resolveVirtualField_plain _ H1 H2), (values_Some _ _ _ Hvs) in H.
  specialize (H Hres). unfold conditions, condition in *. split.
  - intros v ->. right. by rewrite decide_True in H.
  - intros Hlen. right. by rewrite decide_False in H by lia.
Qed.

(** The select list is the bucket, the resolving breakdown fields in their
    order, and the aggregate. *)
Lemma selectBreakdown_omap fe (breakdown : list string) :
  selectBreakdown Sprintf fe breakdown
  = omap (λ name,
            match resolveDictIfNecessary Sprintf fe (resolveVirtualField name) with
            | Ok statement => Some (statement +:+ " as " +:+ name)
            | _ => None
            end) breakdown.
Proof.
  induction breakdown as [|f breakdown IH]; [done|]. cbn [selectBreakdown omap list_omap].
  by destruct (resolveDictIfNecessary Sprintf fe (resolveVirtualField f)); rewrite IH.
Qed.

(** X2: when the times parse, [fieldsToQuery] returns a statement whatever
    the breakdown fields resolve to: the statement selects the bucket, the
    breakdown fields that resolve, in their order, and the aggregate, and
    groups by [t] and every breakdown name, resolving or not. *)
Theorem fieldsToQuery_survives_unresolved_breakdown fe fields
    (order breakdown ss es : list string) (s e : string) (start end_ : Z) :
  fields !! "breakdown" = Some breakdown →
  fields !! "time_start" = Some (s :: ss) → timeFieldToTimestamp s = Ok start →
  fields !! "time_end" = Some (e :: es) → timeFieldToTimestamp e = Ok end_ →
  fieldsToQuery Sprintf fe fields order
  = Ok ("SELECT "
        +:+ Join ("timestamp as t"
                  :: omap (λ name,
                             match resolveDictIfNecessary Sprintf fe
                                     (resolveVirtualField name) with
                             | Ok statement => Some (statement +:+ " as " +:+ name)
                             | _ => None
                             end) breakdown
                  ++ ["sum(size * samplerate) * 8 / 10"])%list ", "
        +:+ " FROM " +:+ ClickHouseGateway.GetDatabaseName (chgw fe) +:+ ".flows"
        +:+ " WHERE " +:+ Join (conditions Sprintf fe fields order start end_) " AND "
        +:+ " GROUP BY " +:+ Join ("t" :: breakdown) ", "
        +:+ " ORDER BY t") ∧
  (∃ q : string, fieldsToQuery Sprintf fe fields order = Ok q) ∧
  (∀ x : string,
     x ∈ selectFieldList Sprintf fe breakdown ↔
     x = "timestamp as t" ∨ x = "sum(size * samplerate) * 8 / 10" ∨
     ∃ name statement : string,
       name ∈ breakdown ∧
       resolveDictIfNecessary Sprintf fe (resolveVirtualField name) = Ok statement ∧
       x = statement +:+ " as " +:+ name) ∧
  groupBy fields = "t" :: breakdown.
Proof.
  intros Hb Hs Hst He Hen. split; [|split; [|split]].
  - rewrite (fieldsToQuery_Ok Sprintf fe fields order _ _ _ _ _ _ _ Hb Hs Hst He Hen).
    unfold selectFieldList. by rewrite selectBreakdown_omap.
  - eexists. by eapply fieldsToQuery_Ok.
  - intros x. unfold selectFieldList.
    rewrite !elem_of_app, !list_elem_of_singleton, selectBreakdown_elem. tauto.
  - unfold groupBy. by rewrite (values_Some _ _ _ Hb).
Qed.

End QueryExtras.

Lemma plain_filter_condition_witness :
  "dst_asn = '65001'"
  ∈ conditions SprintfStrings exampleFrontend requestFiltered
      ["breakdown"; "time_start"; "src_ip_pfx"; "time_end"; "src_port"; "dst_asn"]
      1704096000 1704099600 ∧
  "src_port IN ('80', '443')"
  ∈ conditions SprintfStrings exampleFrontend requestFiltered
      ["breakdown"; "time_start"; "src_ip_pfx"; "time_end"; "src_port"; "dst_asn"]
      1704096000 1704099600.
Proof.
  split.
  - apply (proj1 (plain_filter_condition SprintfStrings exampleFrontend requestFiltered
             ["breakdown"; "time_start"; "src_ip_pfx"; "time_end"; "src_port"; "dst_asn"]
             ["65001"] "dst_asn" "dst_asn" 1704096000 1704099600
             ltac:(split; compute_done) ltac:(vm_compute; reflexivity) eq_refl
             ltac:(discriminate) ltac:(discriminate) eq_refl) "65001" eq_refl).
  - apply (proj2 (plain_filter_condition SprintfStrings exampleFrontend requestFiltered
             ["breakdown"; "time_start"; "src_ip_pfx"; "time_end"; "src_port"; "dst_asn"]
             ["80"; "443"] "src_port" "src_port" 1704096000 1704099600
             ltac:(split; compute_done) ltac:(vm_compute; reflexivity) eq_refl
             ltac:(discriminate) ltac:(discriminate) eq_refl)).
    simpl. lia.
Defined.

Lemma fieldsToQuery_survives_unresolved_breakdown_witness :
  fieldsToQuery SprintfStrings exampleFrontend requestUnresolved
    ["breakdown"; "time_start"; "time_end"]
  = Ok ("SELECT timestamp as t, src_asn as src_asn, sum(size * samplerate) * 8 / 10"
        +:+ " FROM flowhouse.flows"
        +:+ " WHERE t BETWEEN toDateTime(1704096000) AND toDateTime(1704099600)"
        +:+ " GROUP BY t, src_asn, foo__bar ORDER BY t") ∧
  groupBy requestUnresolved = ["t"; "src_asn"; "foo__bar"].
Proof.
  destruct (fieldsToQuery_survives_unresolved_breakdown SprintfStrings exampleFrontend
              requestUnresolved ["breakdown"; "time_start"; "time_end"]
              ["src_asn"; "foo__bar"] [] [] "2024-01-01T10:00" "2024-01-01T11:00"
              1704096000 1704099600
              ltac:(vm_compute; reflexivity) ltac:(vm_compute; reflexivity)
              ltac:(vm_compute; reflexivity) ltac:(vm_compute; reflexivity)
              ltac:(vm_compute; reflexivity)) as (Hq & _ & _ & Hg).
  split; [exact Hq | exact Hg].
Defined.

(** [Time.unixDate] on known instants. *)
Example unixDate_known_instants :
  Time.unixDate 1970 1 1 0 0 0 = 0 ∧
  Time.unixDate 1969 12 31 23 59 59 = -1 ∧
  Time.unixDate 2000 3 1 0 0 0 = 951868800 ∧
  Time.unixDate 2024 1 1 8 0 0 = 1704096000.
Proof. repeat split; reflexivity. Qed.

(** [strings.Split] on separators next to each other and at the ends. *)
Example Split_examples :
  Strings.Split "a___b" "__" = ["a"; "_b"] ∧
  Strings.Split "a__" "__" = ["a"; ""] ∧
  Strings.Split "" "__" = [""] ∧
  Strings.Split "/dicts/src_asn__name" "/" = [""; "dicts"; "src_asn__name"].
Proof. repeat split; reflexivity. Qed.


(** ** Readable labels *)

Section LabelFacts.
Import Strings.
Context (Title : string → string).

Lemma Index_HasPrefix (s p : string) : HasPrefix s p = true → Index s p = Some 0%nat.
Proof. intros H. destruct s; simpl; by rewrite H. Qed.

Lemma ReplaceFirst_prefix (s old new : string) :
  HasPrefix s old = true → ReplaceFirst s old new = new +:+ drop (String.length old) s.
Proof. intros H. unfold ReplaceFirst. by rewrite (Index_HasPrefix _ _ H). Qed.

Lemma ReplaceFirst_absent (s old new : string) :
  Index s old = None → ReplaceFirst s old new = s.
Proof. intros H. unfold ReplaceFirst. by rewrite H. Qed.

(** In front of a text without [_], the first [__] is that of what follows. *)
Lemma Index_after_plain (short rest : string) :
  Forall (λ c, c ≠ "_"%char) (list_ascii_of_string short) →
  Index (short +:+ rest) "__" = (λ m, String.length short + m)%nat <$> Index rest "__".
Proof.
  induction short as [|c short IH]; intros Hs.
  - rewrite app_empty_l. simpl. by destruct (Index rest "__").
  - inversion_clear Hs as [|?? Hc Hs']. rewrite app_String. simpl.
    rewrite decide_False by done. rewrite (IH Hs').
    by destruct (Index rest "__").
Qed.

Lemma Split_two_parts (s sep : string) :
  sep ≠ "" → Contains s sep = true → ∃ p0 p1 ps, Split s sep = p0 :: p1 :: ps.
Proof.
  intros Hsep. unfold Contains. intros [m Hm]%bool_decide_eq_true. unfold Split.
  pose proof (Index_bound _ _ _ Hm) as Hb.
  assert (0 < String.length sep)%nat by (destruct sep; [done|simpl; lia]).
  destruct (String.length s) as [|n]; [lia|]. simpl. rewrite Hm.
  pose proof (genSplit_not_nil n (drop (m + String.length sep) s) sep) as Hne.
  destruct (genSplit n (drop (m + String.length sep) s) sep) as [|p1 ps]; [done|].
  by eexists _, _, _.
Qed.

Lemma replaceFieldName_known (f : Descriptor.t) (rest : string) :
  f ∈ fields →
  replaceFieldName fields (Descriptor.Name f +:+ rest) = Descriptor.ShortLabel f +:+ rest.
Proof.
  intros Hf. unfold fields in Hf.
  repeat (apply elem_of_cons in Hf as [-> | Hf]; [vm_compute; reflexivity|]).
  by apply elem_of_nil in Hf.
Qed.

Lemma ShortLabel_plain (f : Descriptor.t) :
  f ∈ fields →
  Forall (λ c, c ≠ "_"%char) (list_ascii_of_string (Descriptor.ShortLabel f)).
Proof.
  intros Hf. unfold fields in Hf.
  repeat (apply elem_of_cons in Hf as [-> | Hf]; [compute_done|]).
  by apply elem_of_nil in Hf.
Qed.

Lemma replaceFieldName_unknown (table : list Descriptor.t) (label : string) :
  (∀ f, f ∈ table → HasPrefix label (Descriptor.Name f) = false) →
  replaceFieldName table label = label.
Proof.
  induction table as [|f table IH]; intros H; simpl; [done|].
  rewrite H by (by left). apply IH. intros g Hg. apply H. by right.
Qed.

(** X4: the label of a column named after a known field has the field's
    name replaced by its short label; a dictionary column [field__sub] is
    labelled [Short.Sub], with [sub] in title case.  A column that starts
    with no known field name and has no [__] keeps its name. *)
Theorem getReadableLabel_columns (f : Descriptor.t) (rest sub label : string) :
  (f ∈ fields → Index rest "__" = None →
   getReadableLabel Title (Descriptor.Name f +:+ rest) = Descriptor.ShortLabel f +:+ rest) ∧
  (f ∈ fields → Index sub "__" = None →
   getReadableLabel Title (Descriptor.Name f +:+ "__" +:+ sub)
   = Descriptor.ShortLabel f +:+ "." +:+ Title sub) ∧
  ((∀ g, g ∈ fields → HasPrefix label (Descriptor.Name g) = false) →
   Index label "__" = None →
   getReadableLabel Title label = label).
Proof.
  split; [|split].
  - intros Hf Hr. unfold getReadableLabel. rewrite (replaceFieldName_known _ _ Hf).
    assert (Contains (Descriptor.ShortLabel f +:+ rest) "__" = false) as ->; [|done].
    apply Contains_false. by rewrite (Index_after_plain _ _ (ShortLabel_plain _ Hf)), Hr.
  - intros Hf Hs. unfold getReadableLabel. rewrite (replaceFieldName_known _ _ Hf).
    assert (Index (Descriptor.ShortLabel f +:+ "__" +:+ sub) "__"
            = Some (String.length (Descriptor.ShortLabel f))) as Hi.
    { rewrite (Index_after_plain _ _ (ShortLabel_plain _ Hf)). simpl.
      by rewrite Nat.add_0_r. }
    assert (Contains (Descriptor.ShortLabel f +:+ "__" +:+ sub) "__" = true) as ->.
    { unfold Contains. apply bool_decide_eq_true. by rewrite Hi. }
    simpl. rewrite (Split_at_first (Descriptor.ShortLabel f) sub "__") by done.
    by rewrite (Split_no_sep _ _ Hs).
  - intros Hu Hl. unfold getReadableLabel. rewrite (replaceFieldName_unknown _ _ Hu).
    by rewrite (proj2 (Contains_false _ _) Hl).
Qed.

End LabelFacts.

Ltac in_list := repeat first [apply list_elem_of_here | apply list_elem_of_further].

Lemma getReadableLabel_columns_witness :
  getReadableLabel TitleAscii "src_asn" = "Src.AS" ∧
  getReadableLabel TitleAscii "src_asn__name" = "Src.AS.Name" ∧
  getReadableLabel TitleAscii "bytes" = "bytes".
Proof.
  split; [|split].
  - apply (proj1 (getReadableLabel_columns TitleAscii
             {| Descriptor.Name := "src_asn"; Descriptor.Label := "Source ASN";
                Descriptor.ShortLabel := "Src.AS" |} "" "" "")).
    + unfold fields. in_list.
    + reflexivity.
  - apply (proj1 (proj2 (getReadableLabel_columns TitleAscii
             {| Descriptor.Name := "src_asn"; Descriptor.Label := "Source ASN";
                Descriptor.ShortLabel := "Src.AS" |} "" "name" ""))).
    + unfold fields. in_list.
    + reflexivity.
  - apply (proj2 (proj2 (getReadableLabel_columns TitleAscii
             {| Descriptor.Name := "src_asn"; Descriptor.Label := "Source ASN";
                Descriptor.ShortLabel := "Src.AS" |} "" "" "bytes"))).
    + intros g Hg. unfold fields in Hg.
      repeat (apply elem_of_cons in Hg as [-> | Hg]; [reflexivity|]).
      by apply elem_of_nil in Hg.
    + reflexivity.
Defined.


(** ** Row keys *)

Section RowFacts.
Context (Title : string → string).
Context {IP Time float64 : Type}.
Context (IP_String : IP → string).
Local Open Scope list_scope.

Local Abbreviation row_t := (list (string * @value IP Time float64)).

Lemma keyComponents_middle (h l : string * @value IP Time float64) (mid : row_t) :
  keyComponents Title IP_String (h :: mid ++ [l])
  = omap (λ cv, keyComponent IP_String (getReadableLabel Title cv.1) cv.2) mid.
Proof.
  unfold keyComponents. simpl. rewrite List.length_app. simpl.
  replace (length mid + 1 - 1)%nat with (length mid) by lia.
  by rewrite drop_0, list.take_app_length.
Qed.

Lemma rowEntry_not_Err (row : row_t) (e : error) : rowEntry Title IP_String row ≠ Err e.
Proof.
  unfold rowEntry. destruct row as [|[c0 v0] tl]; [done|].
  destruct v0; try done. destruct (last _) as [[cl vl]|]; [|done]. by destruct vl.
Qed.

(** X5: a row yields an entry exactly when it has at least two columns, the
    first holding a time and the last a [float64]; the key is then made of
    the columns strictly between them.  Every other row makes [processQuery]
    panic, a row with a single column among them. *)
Theorem rowEntry_Ok_iff (row : row_t) :
  (∀ (ts : Time) (key : string) (f : float64),
     rowEntry Title IP_String row = Ok (ts, key, f) ↔
     ∃ (c0 cl : string) (mid : row_t),
       row = (c0, VTime ts) :: mid ++ [(cl, VFloat64 f)] ∧
       key = Strings.Join
               (omap (λ cv, keyComponent IP_String (getReadableLabel Title cv.1) cv.2) mid)
               ";") ∧
  (∀ e : error, rowEntry Title IP_String row ≠ Err e) ∧
  ((length row ≤ 1)%nat → rowEntry Title IP_String row = Panic).
Proof.
  split; [|split; [apply rowEntry_not_Err|]].
  - intros ts key f. split.
    + unfold rowEntry. destruct row as [|[c0 v0] tl]; [done|].
      destruct v0; try done.
      destruct (last ((c0, VTime t) :: tl)) as [[cl vl]|] eqn:El; [|done].
      destruct vl; try done. intros [= -> <- ->].
      destruct tl as [|x tl _] using rev_ind; [done|].
      rewrite app_comm_cons, last_snoc in El. injection El as ->.
      exists c0, cl, tl. split; [done|]. by rewrite keyComponents_middle.
    + intros (c0 & cl & mid & -> & ->). unfold rowEntry.
      rewrite app_comm_cons, last_snoc. by rewrite <- app_comm_cons, keyComponents_middle.
  - unfold rowEntry. destruct row as [|[c0 v0] [|x tl]]; simpl; [done| |lia].
    intros _. by destruct v0.
Qed.

(** X6: a column between the first and the last whose value has none of the
    types the switch names leaves no trace in the entry: the row gives what
    it gives without that column. *)
Theorem rowEntry_drops_unsupported (h l : string * @value IP Time float64)
    (mid1 mid2 : row_t) (c : string) (v : @value IP Time float64) :
  (∀ label, keyComponent IP_String label v = None) →
  rowEntry Title IP_String (h :: (mid1 ++ (c, v) :: mid2) ++ [l])
  = rowEntry Title IP_String (h :: (mid1 ++ mid2) ++ [l]).
Proof.
  intros Hv. unfold rowEntry. rewrite !keyComponents_middle.
  rewrite !omap_app. simpl. rewrite (Hv (getReadableLabel Title c)).
  destruct h as [c0 v0]. destruct v0; try done.
  by rewrite !app_comm_cons, !last_snoc.
Qed.

End RowFacts.

Lemma rowEntry_drops_unsupported_witness :
  rowEntry TitleAscii (λ ip : string, ip)
    [("t", VTime 100); ("src_asn", VUint32 65001%N); ("note", VOther);
     ("sum", VFloat64 10)]
  = rowEntry (IP:=string) (Time:=Z) (float64:=Z) TitleAscii (λ ip : string, ip)
      [("t", VTime 100); ("src_asn", VUint32 65001%N); ("sum", VFloat64 10)].
Proof.
  apply (rowEntry_drops_unsupported TitleAscii (λ ip : string, ip)
           ("t", VTime 100) ("sum", VFloat64 10) [("src_asn", VUint32 65001%N)] []
           "note" VOther).
  reflexivity.
Defined.

Lemma rowEntry_Ok_iff_witness :
  rowEntry (IP:=string) (Time:=Z) (float64:=Z) TitleAscii (λ ip : string, ip)
    [("t", VTime 100); ("src_asn", VUint32 65001%N); ("dst_asn__name", VString "ACME");
     ("sum", VFloat64 10)]
  = Ok (100, "Src.AS=65001;Dst.AS.Name=ACME", 10)
  ∧ rowEntry (IP:=string) (Time:=Z) (float64:=Z) TitleAscii (λ ip : string, ip)
      [("t", VTime 100)]
    = Panic.
Proof.
  split.
  - apply (proj1 (rowEntry_Ok_iff TitleAscii (λ ip : string, ip) _)).
    by exists "t", "sum",
      [("src_asn", VUint32 65001%N); ("dst_asn__name", VString "ACME")].
  - apply (proj2 (proj2 (rowEntry_Ok_iff TitleAscii (λ ip : string, ip) _))).
    simpl. lia.
Defined.


(** ** The index view *)

Section IndexViewFacts.
Import Strings.
Context (Sprintf : string → list string → string).
Context (Title : string → string).
Context (DescribeDict : string → list string + error).
Context {Rows : Type}.
Implicit Types fe : @Frontend Rows.
Local Open Scope list_scope.

Lemma getIndexView_foldl (dictCfgs : Dicts) (table : list Descriptor.t) (ret : IndexView.t) :
  IndexView.FieldGroups (foldl (addFieldGroup Title DescribeDict dictCfgs) ret table)
  = IndexView.FieldGroups ret
    ++ map (λ field,
              fieldGroupOf field
                (flat_map (dictFieldsOf Title DescribeDict field) dictCfgs)) table
  ∧ IndexView.BreakDownLen (foldl (addFieldGroup Title DescribeDict dictCfgs) ret table)
    = IndexView.BreakDownLen ret
      + Z.of_nat
          (length
             (flat_map (λ field,
                          FieldGroup.Fields
                            (fieldGroupOf field
                               (flat_map (dictFieldsOf Title DescribeDict field) dictCfgs)))
                       table)
           + length table).
Proof.
  revert ret. induction table as [|field table IH]; intros ret; simpl.
  - rewrite app_nil_r. split; [done|lia].
  - destruct (IH (addFieldGroup Title DescribeDict dictCfgs ret field)) as [-> ->].
    simpl. rewrite <- app_assoc. split; [done|].
    rewrite List.length_app. lia.
Qed.

Lemma flat_map_fmap {A B C} (f : B → list C) (g : A → B) (l : list A) :
  flat_map f (map g l) = flat_map (λ x, f (g x)) l.
Proof. induction l as [|x l IH]; simpl; [done|by rewrite IH]. Qed.

Lemma getDict_elem (dictCfgs : Dicts) (d : Dict.t) :
  d ∈ dictCfgs → is_Some (getDict dictCfgs (Dict.Field d)).
Proof.
  induction dictCfgs as [|x dictCfgs IH]; [by intros ?%elem_of_nil|].
  intros [-> | Hd]%elem_of_cons; simpl.
  - by rewrite decide_True.
  - case_decide; [done|]. by apply IH.
Qed.

Lemma dictFieldsOf_elem (field : Descriptor.t) (d : Dict.t) (fld : Field.t) :
  fld ∈ dictFieldsOf Title DescribeDict field d →
  Dict.Field d = Descriptor.Name field ∧
  ∃ c, Field.Name fld = Descriptor.Name field +:+ "__" +:+ c.
Proof.
  unfold dictFieldsOf. case_decide as Hf; [by intros ?%elem_of_nil|].
  destruct (DescribeDict (Dict.Dict d)) as [dictFields|e]; [|by intros ?%elem_of_nil].
  intros (c & -> & _)%list_elem_of_fmap. split; [done|]. by exists c.
Qed.

Lemma resolve_field_name fe (field : Descriptor.t) :
  field ∈ fields →
  ∃ st, resolveDictIfNecessary Sprintf fe (resolveVirtualField (Descriptor.Name field))
        = Ok st.
Proof.
  intros Hf. unfold fields in Hf.
  repeat (apply elem_of_cons in Hf as [-> | Hf]; [by eexists|]).
  by apply elem_of_nil in Hf.
Qed.

Lemma Index_field_name (field : Descriptor.t) (c : string) :
  field ∈ fields →
  Index (Descriptor.Name field +:+ "__" +:+ c) "__"
  = Some (String.length (Descriptor.Name field)).
Proof.
  intros Hf. unfold fields in Hf.
  repeat (apply elem_of_cons in Hf as [-> | Hf]; [reflexivity|]).
  by apply elem_of_nil in Hf.
Qed.

Lemma resolve_dict_field_name fe (field : Descriptor.t) (c : string) :
  field ∈ fields →
  is_Some (getDict (dictCfgs fe) (Descriptor.Name field)) →
  ∃ st, resolveDictIfNecessary Sprintf fe
          (resolveVirtualField (Descriptor.Name field +:+ "__" +:+ c)) = Ok st.
Proof.
  intros Hf [d Hd]. pose proof (Index_field_name field c Hf) as Hi.
  rewrite resolveVirtualField_plain; cycle 1.
  { intros E. rewrite E in Hi. vm_compute in Hi. done. }
  { intros E. rewrite E in Hi. vm_compute in Hi. done. }
  unfold resolveDictIfNecessary. rewrite (parseFieldName_at_first _ _ Hi).
  case_decide; [by eexists|]. rewrite Hd. by eexists.
Qed.

(** X7: every field name the index view offers, the plain ones and the
    [field__column] ones of the dictionaries, is one the query builder
    resolves without error. *)
Theorem getIndexView_fields_resolve fe (fg : FieldGroup.t) (fld : Field.t) :
  fg ∈ IndexView.FieldGroups (getIndexView Title DescribeDict (dictCfgs fe)) →
  fld ∈ FieldGroup.Fields fg →
  ∃ st, resolveDictIfNecessary Sprintf fe (resolveVirtualField (Field.Name fld)) = Ok st.
Proof.
  unfold getIndexView. rewrite (proj1 (getIndexView_foldl _ _ _)).
  cbn [IndexView.FieldGroups app].
  intros (field & -> & Hfield)%list_elem_of_fmap. simpl.
  intros [-> | Hfld]%elem_of_cons; simpl.
  - by apply resolve_field_name.
  - apply list_elem_of_In, in_flat_map in Hfld as (d & Hd%list_elem_of_In & Hfld%list_elem_of_In).
    apply dictFieldsOf_elem in Hfld as (Hdf & c & ->).
    apply resolve_dict_field_name; [done|]. rewrite <- Hdf. by apply getDict_elem.
Qed.

(** X8: the index view has one group per entry of the field table, in the
    table's order, each led by the field itself; and [BreakDownLen] is the
    number of fields offered plus the number of groups. *)
Theorem getIndexView_groups (dictCfgs : Dicts) :
  let view := getIndexView Title DescribeDict dictCfgs in
  map FieldGroup.Name (IndexView.FieldGroups view) = map Descriptor.Name fields ∧
  Forall (λ fg, ∃ added,
            FieldGroup.Fields fg
            = {| Field.Name := FieldGroup.Name fg; Field.Label := FieldGroup.Label fg |}
              :: added)
         (IndexView.FieldGroups view) ∧
  IndexView.BreakDownLen view
  = Z.of_nat (length (flat_map FieldGroup.Fields (IndexView.FieldGroups view))
              + length (IndexView.FieldGroups view)).
Proof.
  intros view. unfold view, getIndexView.
  destruct (getIndexView_foldl dictCfgs fields
              {| IndexView.FieldGroups := []; IndexView.BreakDownLen := 0 |}) as [-> ->].
  cbn [IndexView.FieldGroups IndexView.BreakDownLen app]. split; [|split].
  - rewrite map_map. done.
  - apply Forall_forall. intros fg (field & -> & _)%list_elem_of_fmap. by eexists.
  - by rewrite length_map, Z.add_0_l, flat_map_fmap.
Qed.

End IndexViewFacts.

Lemma getIndexView_fields_resolve_witness :
  ∃ st,
    resolveDictIfNecessary SprintfStrings exampleFrontend
      (resolveVirtualField "src_asn__country") = Ok st.
Proof.
  apply (getIndexView_fields_resolve SprintfStrings TitleAscii exampleDescribeDict
           exampleFrontend
           (fieldGroupOf
              {| Descriptor.Name := "src_asn"; Descriptor.Label := "Source ASN";
                 Descriptor.ShortLabel := "Src.AS" |}
              [ {| Field.Name := "src_asn__name"; Field.Label := "Source ASN Name" |};
                {| Field.Name := "src_asn__country";
                   Field.Label := "Source ASN Country" |} ])
           {| Field.Name := "src_asn__country"; Field.Label := "Source ASN Country" |}).
  - vm_compute. in_list.
  - vm_compute. in_list.
Defined.


(** ** What the statement does not depend on *)

Section QueryInvariance.
Import Strings.
Context (Sprintf : string → list string → string).
Context {Rows : Type}.
Implicit Types fe : @Frontend Rows.
Implicit Types fields : Values.
Local Open Scope list_scope.

Lemma filterConditions_Permutation fe fields (order1 order2 : list string) :
  order1 ≡ₚ order2 →
  filterConditions Sprintf fe fields order1 ≡ₚ filterConditions Sprintf fe fields order2.
Proof.
  induction 1 as [|k o1 o2 _ IH|k1 k2 o|o1 o2 o3 _ IH1 _ IH2]; simpl.
  - done.
  - destruct (notFilter k); [done|].
    by destruct (resolveDictIfNecessary Sprintf fe (resolveVirtualField k)); rewrite IH.
  - destruct (notFilter k1), (notFilter k2); try done;
      destruct (resolveDictIfNecessary Sprintf fe (resolveVirtualField k1));
      destruct (resolveDictIfNecessary Sprintf fe (resolveVirtualField k2));
      try done; apply perm_swap.
  - by rewrite IH1.
Qed.

Lemma filterConditions_omap fe fields (order : list string) :
  filterConditions Sprintf fe fields order
  = omap (λ k,
            if notFilter k then None else
            match resolveDictIfNecessary Sprintf fe (resolveVirtualField k) with
            | Ok statement =>
                Some (condition statement (values fields (resolveVirtualField k)))
            | _ => None
            end) order.
Proof.
  induction order as [|k order IH]; [done|]. cbn [filterConditions omap list_omap].
  destruct (notFilter k); [done|].
  by destruct (resolveDictIfNecessary Sprintf fe (resolveVirtualField k)); rewrite IH.
Qed.

(** X9: the order in which the map range yields the parameters only
    permutes the conditions after the time range: whatever the range order,
    the conditions are the time range [t BETWEEN ...] first, and then, in
    some order, one condition for each parameter of the request that is a
    filter and resolves.  Two range orders of the same request give the
    same conditions up to their order. *)
Theorem conditions_range_order fe fields (order1 order2 : list string) (start end_ : Z) :
  rangeOrder fields order1 → rangeOrder fields order2 →
  let timeRange :=
    "t BETWEEN toDateTime(" +:+ itoa start +:+ ") AND toDateTime(" +:+ itoa end_ +:+ ")" in
  let perParameter :=
    omap (λ k,
            if notFilter k then None else
            match resolveDictIfNecessary Sprintf fe (resolveVirtualField k) with
            | Ok statement =>
                Some (condition statement (values fields (resolveVirtualField k)))
            | _ => None
            end) (elements (dom fields)) in
  (∃ rest1 rest2 : list string,
     conditions Sprintf fe fields order1 start end_ = timeRange :: rest1 ∧
     conditions Sprintf fe fields order2 start end_ = timeRange :: rest2 ∧
     rest1 ≡ₚ perParameter ∧ rest2 ≡ₚ perParameter) ∧
  conditions Sprintf fe fields order1 start end_
  ≡ₚ conditions Sprintf fe fields order2 start end_ ∧
  head (conditions Sprintf fe fields order1 start end_) = Some timeRange ∧
  head (conditions Sprintf fe fields order2 start end_) = Some timeRange.
Proof.
  intros Ho1 Ho2. cbv zeta.
  assert (∀ order, rangeOrder fields order →
            filterConditions Sprintf fe fields order
            ≡ₚ filterConditions Sprintf fe fields (elements (dom fields))) as Hperm.
  { intros order [Hn H]. apply filterConditions_Permutation, NoDup_Permutation;
      [done|apply NoDup_elements|].
    intros k. by rewrite elem_of_elements, <- H, elem_of_list_to_set. }
  pose proof (Hperm _ Ho1) as H1. pose proof (Hperm _ Ho2) as H2.
  split; [|split; [|done]].
  - exists (filterConditions Sprintf fe fields order1),
      (filterConditions Sprintf fe fields order2).
    rewrite <- filterConditions_omap. done.
  - unfold conditions. f_equiv. by rewrite H1, H2.
Qed.

Lemma notFilter_prefix (k : string) : HasPrefix k "filter_field" = true → notFilter k = true.
Proof. unfold notFilter. intros ->. by rewrite !orb_true_r. Qed.

Lemma HasPrefix_resolveVirtualField (k : string) :
  HasPrefix k "filter_field" = false →
  HasPrefix (resolveVirtualField k) "filter_field" = false.
Proof. unfold resolveVirtualField. by repeat case_decide. Qed.

Lemma filterConditions_agree fe (fields1 fields2 : Values) (order : list string) :
  (∀ k, HasPrefix k "filter_field" = false → fields1 !! k = fields2 !! k) →
  filterConditions Sprintf fe fields1 order = filterConditions Sprintf fe fields2 order.
Proof.
  intros Hag. induction order as [|k order IH]; simpl; [done|].
  destruct (notFilter k) eqn:Hk; [done|].
  destruct (resolveDictIfNecessary Sprintf fe (resolveVirtualField k)); try done.
  rewrite IH. f_equal. unfold values. rewrite Hag; [done|].
  apply HasPrefix_resolveVirtualField.
  destruct (HasPrefix k "filter_field") eqn:E; [|done].
  by rewrite (notFilter_prefix _ E) in Hk.
Qed.

Lemma filterConditions_skip_prefixed fe fields (order : list string) :
  filterConditions Sprintf fe fields
    (filter (λ k, HasPrefix k "filter_field" = false) order)
  = filterConditions Sprintf fe fields order.
Proof.
  induction order as [|k order IH]; [done|].
  rewrite filter_cons. case_decide as Hk; cbn [filterConditions]; rewrite IH; [done|].
  apply not_false_iff_true in Hk. by rewrite (notFilter_prefix _ Hk).
Qed.

Lemma fieldsToQuery_agree fe (fields1 fields2 : Values) (order1 order2 : list string) :
  (∀ k, HasPrefix k "filter_field" = false → fields1 !! k = fields2 !! k) →
  filter (λ k, HasPrefix k "filter_field" = false) order1
  = filter (λ k, HasPrefix k "filter_field" = false) order2 →
  fieldsToQuery Sprintf fe fields1 order1 = fieldsToQuery Sprintf fe fields2 order2.
Proof.
  intros Hag Ho. unfold fieldsToQuery, conditions, groupBy, values.
  rewrite <- !(Hag "breakdown"), <- !(Hag "time_start"), <- !(Hag "time_end") by done.
  rewrite <- (filterConditions_skip_prefixed fe fields1 order1), Ho,
    (filterConditions_skip_prefixed fe fields1 order2),
    (filterConditions_agree fe fields1 fields2 order2 Hag).
  done.
Qed.

(** X10: parameters whose name starts with [filter_field] have no influence
    on the query: two requests that agree on every other parameter get the
    same result from [fieldsToQuery], statement or error, whether or not the
    range passes over such parameters. *)
Theorem fieldsToQuery_ignores_filter_field fe (fields1 fields2 : Values)
    (order1 order2 : list string) :
  (∀ k, HasPrefix k "filter_field" = false → fields1 !! k = fields2 !! k) →
  filter (λ k, HasPrefix k "filter_field" = false) order1
  = filter (λ k, HasPrefix k "filter_field" = false) order2 →
  fieldsToQuery Sprintf fe fields1 order1 = fieldsToQuery Sprintf fe fields2 order2.
Proof. apply fieldsToQuery_agree. Qed.

Lemma dissectIndexQuery_lookup (vals : Values) (k : string) :
  dissectIndexQuery vals !! k
  = if HasPrefix k "filter_field" then None else vals !! k.
Proof.
  unfold dissectIndexQuery. destruct (HasPrefix k "filter_field") eqn:E.
  - apply map_lookup_filter_None. right. intros x _. cbn [fst]. by rewrite E.
  - destruct (vals !! k) as [x|] eqn:Ek.
    + by apply map_lookup_filter_Some.
    + apply map_lookup_filter_None. by left.
Qed.

(** X11: [dissectIndexQuery] keeps the parameters whose name does not start
    with [filter_field], with their values, and drops the others; doing it
    twice changes nothing more, and the query built from the dissected
    parameters is the query built from the original ones. *)
Theorem dissectIndexQuery_spec fe (vals : Values) (order : list string) :
  (∀ k, dissectIndexQuery vals !! k
        = if HasPrefix k "filter_field" then None else vals !! k) ∧
  dissectIndexQuery (dissectIndexQuery vals) = dissectIndexQuery vals ∧
  fieldsToQuery Sprintf fe (dissectIndexQuery vals) order
  = fieldsToQuery Sprintf fe vals order.
Proof.
  split; [apply dissectIndexQuery_lookup|]. split.
  - apply map_eq. intros k. rewrite !dissectIndexQuery_lookup.
    by destruct (HasPrefix k "filter_field").
  - apply fieldsToQuery_agree; [|done].
    intros k Hk. by rewrite dissectIndexQuery_lookup, Hk.
Qed.

End QueryInvariance.

Lemma conditions_range_order_witness :
  conditions SprintfStrings exampleFrontend requestFiltered
    ["breakdown"; "time_start"; "src_ip_pfx"; "time_end"; "src_port"; "dst_asn"]
    1704096000 1704099600
  ≡ₚ conditions SprintfStrings exampleFrontend requestFiltered
       ["dst_asn"; "src_port"; "time_end"; "src_ip_pfx"; "time_start"; "breakdown"]
       1704096000 1704099600
  ∧ head (conditions SprintfStrings exampleFrontend requestFiltered
            ["breakdown"; "time_start"; "src_ip_pfx"; "time_end"; "src_port"; "dst_asn"]
            1704096000 1704099600)
    = Some "t BETWEEN toDateTime(1704096000) AND toDateTime(1704099600)"
  ∧ head (conditions SprintfStrings exampleFrontend requestFiltered
            ["dst_asn"; "src_port"; "time_end"; "src_ip_pfx"; "time_start"; "breakdown"]
            1704096000 1704099600)
    = Some "t BETWEEN toDateTime(1704096000) AND toDateTime(1704099600)".
Proof.
  pose proof (conditions_range_order SprintfStrings exampleFrontend requestFiltered
                ["breakdown"; "time_start"; "src_ip_pfx"; "time_end"; "src_port"; "dst_asn"]
                ["dst_asn"; "src_port"; "time_end"; "src_ip_pfx"; "time_start"; "breakdown"]
                1704096000 1704099600
                ltac:(split; compute_done) ltac:(split; compute_done)) as H.
  cbv zeta in H. exact (proj2 H).
Defined.

Lemma fieldsToQuery_ignores_filter_field_witness :
  fieldsToQuery SprintfStrings exampleFrontend requestVirtualFilter
    ["src_ip_pfx"; "breakdown"; "time_start"; "time_end"]
  = fieldsToQuery SprintfStrings exampleFrontend
      (<[ "filter_field_1" := ["src_asn"] ]> requestVirtualFilter)
      ["filter_field_1"; "src_ip_pfx"; "breakdown"; "time_start"; "time_end"].
Proof.
  apply (fieldsToQuery_ignores_filter_field SprintfStrings exampleFrontend
           requestVirtualFilter (<[ "filter_field_1" := ["src_asn"] ]> requestVirtualFilter)
           ["src_ip_pfx"; "breakdown"; "time_start"; "time_end"]
           ["filter_field_1"; "src_ip_pfx"; "breakdown"; "time_start"; "time_end"]).
  - intros k Hk. rewrite lookup_insert_ne; [reflexivity|].
    intros <-. vm_compute in Hk. discriminate Hk.
  - vm_compute. reflexivity.
Defined.


(** ** The two parsers of composite names, and the two dictionary lookups *)

Section DictRequestFacts.
Import Strings Http.
Context (Sprintf : string → list string → string).
Context {Rows : Type}.
Context (json_Marshal : list string → outcome string).
Implicit Types fe : @Frontend Rows.
Local Open Scope list_scope.

(** X12: [parseDictValueRequest] accepts exactly the inputs with one [__]:
    the input is then [field__column] for the pair it returns, and
    [parseFieldName] splits it into the same pair; any other input is an
    error. *)
Theorem parseDictValueRequest_spec (input : string) :
  (∀ fieldName column : string,
     parseDictValueRequest input = Ok (fieldName, column) ↔
     Split input "__" = [fieldName; column]) ∧
  (∀ fieldName column : string,
     parseDictValueRequest input = Ok (fieldName, column) →
     input = fieldName +:+ "__" +:+ column ∧ parseFieldName input = (fieldName, column)) ∧
  (length (Split input "__") ≠ 2%nat →
   parseDictValueRequest input = Err (Errorf "Invalid format")).
Proof.
  assert (∀ fieldName column : string,
            parseDictValueRequest input = Ok (fieldName, column) ↔
            Split input "__" = [fieldName; column]) as Hiff.
  { intros fieldName column. unfold parseDictValueRequest.
    destruct (Split input "__") as [|p0 [|p1 [|p2 ps]]]; split; try done; congruence. }
  split; [done|]. split.
  - intros fieldName column Hs%Hiff. split.
    + rewrite <- (Join_Split input "__") at 1. by rewrite Hs.
    + unfold parseFieldName. by rewrite Hs.
  - unfold parseDictValueRequest.
    by destruct (Split input "__") as [|p0 [|p1 [|p2 ps]]].
Qed.

(** X13: the dictionary the values endpoint reads for [field__column] is
    the one resolution names in [dictGet], with the same attribute: the
    response depends on the gateway only through the values of that
    dictionary's column. *)
Theorem GetDictValues_reads_resolved_dict (gw1 gw2 : ClickHouseGateway.t Rows)
    (dicts : Dicts) (p0 p1 fieldName column : string) (d : Dict.t) (w : ResponseWriter) :
  Split (p0 +:+ "/" +:+ p1 +:+ "/" +:+ fieldName +:+ "__" +:+ column) "/"
  = [p0; p1; fieldName +:+ "__" +:+ column] →
  Split (fieldName +:+ "__" +:+ column) "__" = [fieldName; column] →
  column ≠ "" →
  getDict dicts fieldName = Some d →
  ClickHouseGateway.GetDictValues gw1 (Dict.Dict d) column
  = ClickHouseGateway.GetDictValues gw2 (Dict.Dict d) column →
  GetDictValues json_Marshal {| chgw := gw1; dictCfgs := dicts |}
    (p0 +:+ "/" +:+ p1 +:+ "/" +:+ fieldName +:+ "__" +:+ column) w
  = GetDictValues json_Marshal {| chgw := gw2; dictCfgs := dicts |}
      (p0 +:+ "/" +:+ p1 +:+ "/" +:+ fieldName +:+ "__" +:+ column) w
  ∧ ∃ expr : string,
      resolveDictIfNecessary Sprintf {| chgw := gw1; dictCfgs := dicts |}
        (fieldName +:+ "__" +:+ column)
      = Ok ("dictGet('" +:+ Dict.Dict d +:+ "', '" +:+ column +:+ "', " +:+ expr +:+ ")").
Proof.
  intros Hpath Hname Hcol Hd Hgw. split.
  - unfold GetDictValues. rewrite Hpath. unfold parseDictValueRequest. rewrite Hname.
    cbn [dictCfgs chgw]. rewrite getFieldsDictName_getDict, Hd. cbn [from_option].
    case_decide; [done|]. by rewrite Hgw.
  - unfold resolveDictIfNecessary, parseFieldName. rewrite Hname. simpl.
    rewrite decide_False by done. rewrite Hd. by eexists.
Qed.

End DictRequestFacts.

Lemma parseDictValueRequest_spec_witness :
  parseDictValueRequest "src_asn__name" = Ok ("src_asn", "name")
  ∧ parseFieldName "src_asn__name" = ("src_asn", "name")
  ∧ parseDictValueRequest "a__b__c" = Err (Errorf "Invalid format").
Proof.
  split; [|split].
  - apply (proj1 (parseDictValueRequest_spec "src_asn__name")). reflexivity.
  - apply (proj1 (proj2 (parseDictValueRequest_spec "src_asn__name")) "src_asn" "name").
    reflexivity.
  - apply (proj2 (proj2 (parseDictValueRequest_spec "a__b__c"))). vm_compute. lia.
Defined.

(** ** Writing the CSV *)

Section CsvFacts.
Import Http.
Context (Sprintf : string → list string → string).
Context {Rows result : Type}.
Context (pivot : Rows → outcome result).
Context (csv : result → ResponseWriter → ResponseWriter * option error).
Implicit Types fe : @Frontend Rows.

(** X14: once [csv] has written to the response, its failure can no longer
    be reported: the handler's [WriteHeader(500)] changes nothing, and the
    client gets the status and the partial body already written. *)
Theorem QueryHandler_late_csv_error fe (query : Values) (order : list string)
    (res : result) (w' : ResponseWriter) (e : error) :
  processQuery Sprintf pivot fe query order = Ok (Some res) →
  csv res newWriter = (w', Some e) →
  is_Some (status w') →
  QueryHandler Sprintf pivot csv fe query order newWriter = Some w'.
Proof.
  intros Hp Hc [s Hs]. unfold QueryHandler. rewrite Hp, Hc.
  unfold WriteHeader. by rewrite Hs.
Qed.

End CsvFacts.

(** ** Inserting flows *)

Section InsertFacts.
Import Insert.
Context {Flow : Type}.
Local Open Scope list_scope.

Lemma execFlows_spec (db : Database Flow) (flows : list Flow) (i : nat) :
  match execFlows db i flows with
  | (calls, None) =>
      calls = map Exec flows ∧ ∀ (j : nat) (fl : Flow), flows !! j = Some fl →
                                 execErr db (i + j) fl = None
  | (calls, Some err) =>
      ∃ (j : nat) (fl : Flow) (e : error),
        flows !! j = Some fl ∧ execErr db (i + j) fl = Some e ∧
        err = Wrap e "Exec failed" ∧
        calls = map Exec (take (S j) flows) ∧
        ∀ (k : nat) (fl' : Flow), (k < j)%nat → flows !! k = Some fl' →
                                  execErr db (i + k) fl' = None
  end.
Proof.
  revert i. induction flows as [|fl flows IH]; intros i; simpl.
  - split; [done|]. intros j fl'. by rewrite lookup_nil.
  - destruct (execErr db i fl) as [e|] eqn:Ee.
    + exists 0%nat, fl, e. rewrite Nat.add_0_r, take_0. repeat split; try done.
      intros k fl' Hk. lia.
    + specialize (IH (S i)). destruct (execFlows db (S i) flows) as [calls [err|]].
      * destruct IH as (j & fl' & e & Hj & He & -> & -> & Hbefore).
        exists (S j), fl', e. rewrite Nat.add_succ_r. repeat split; try done.
        intros [|k] fl'' Hk Hl; simpl in Hl.
        -- injection Hl as <-. by rewrite Nat.add_0_r.
        -- rewrite Nat.add_succ_r. apply (Hbefore k fl''); [lia|done].
      * destruct IH as [-> Hall]. split; [done|].
        intros [|j] fl' Hl; simpl in Hl.
        -- injection Hl as <-. by rewrite Nat.add_0_r.
        -- rewrite Nat.add_succ_r. by apply Hall.
Qed.

(** X15: when [Begin], [Prepare], the [Exec] of every flow and [Commit]
    succeed, [InsertFlows] returns no error, and has executed the flows in
    their order, committed, and closed the statement; and it returns no
    error only then. *)
Theorem InsertFlows_success (db : Database Flow) (flows : list Flow) :
  (beginErr db = None → prepareErr db = None →
   (∀ (j : nat) (fl : Flow), flows !! j = Some fl → execErr db j fl = None) →
   commitErr db = None →
   InsertFlows db flows = ([Begin; Prepare] ++ map Exec flows ++ [Commit; Close], None)) ∧
  ((InsertFlows db flows).2 = None →
   beginErr db = None ∧ prepareErr db = None ∧
   (∀ (j : nat) (fl : Flow), flows !! j = Some fl → execErr db j fl = None) ∧
   commitErr db = None).
Proof.
  unfold InsertFlows. pose proof (execFlows_spec db flows 0) as Hx. split.
  - intros -> -> Hall ->. destruct (execFlows db 0 flows) as [calls [err|]].
    + destruct Hx as (j & fl & e & Hj & He & _). simpl in He.
      by rewrite (Hall j fl Hj) in He.
    + by destruct Hx as [-> _].
  - destruct (beginErr db) as [e|]; [done|].
    destruct (prepareErr db) as [e|]; [done|].
    destruct (execFlows db 0 flows) as [calls [err|]]; [done|].
    destruct Hx as [_ Hall]. simpl in Hall.
    by destruct (commitErr db) as [e|].
Qed.

(** X16: when the [Exec] of a flow fails, [InsertFlows] returns that error
    wrapped as [Exec failed], has executed the flows up to the failing one
    and none after it, and neither commits nor rolls back the transaction
    it began; it still closes the statement. *)
Theorem InsertFlows_exec_failure (db : Database Flow) (flows : list Flow)
    (j : nat) (fl : Flow) (e : error) :
  beginErr db = None → prepareErr db = None →
  flows !! j = Some fl → execErr db j fl = Some e →
  (∀ (k : nat) (fl' : Flow), (k < j)%nat → flows !! k = Some fl' → execErr db k fl' = None) →
  (InsertFlows db flows
   = ([Begin; Prepare] ++ map Exec (take (S j) flows) ++ [Close],
      Some (Wrap e "Exec failed")))
  ∧ (Commit ∉ (InsertFlows db flows).1) ∧ (Rollback ∉ (InsertFlows db flows).1).
Proof.
  intros Hb Hp Hj He Hbefore.
  assert (InsertFlows db flows
          = ([Begin; Prepare] ++ map Exec (take (S j) flows) ++ [Close],
             Some (Wrap e "Exec failed"))) as Heq.
  { unfold InsertFlows. rewrite Hb, Hp. pose proof (execFlows_spec db flows 0) as Hx.
    destruct (execFlows db 0 flows) as [calls [err|]].
    - destruct Hx as (j' & fl' & e' & Hj' & He' & -> & -> & Hbefore'). simpl in *.
      destruct (Nat.lt_trichotomy j j') as [Hlt | [<- | Hgt]].
      + by rewrite (Hbefore' j fl Hlt Hj) in He.
      + rewrite Hj in Hj'. injection Hj' as <-. rewrite He in He'. by injection He' as <-.
      + by rewrite (Hbefore j' fl' Hgt Hj') in He'.
    - destruct Hx as [_ Hall]. simpl in Hall. by rewrite (Hall j fl Hj) in He. }
  split; [done|]. rewrite Heq. simpl.
  split; intros Hin; repeat (apply elem_of_cons in Hin as [Hin | Hin]; [done|]);
    apply elem_of_app in Hin as [(x & Hx & _)%list_elem_of_fmap | Hin]; try done;
    apply list_elem_of_singleton in Hin; done.
Qed.

End InsertFacts.

Lemma GetDictValues_reads_resolved_dict_witness :
  GetDictValues jsonPlain {| chgw := exampleGateway; dictCfgs := exampleDicts |}
    "/dicts/src_asn__name" Http.newWriter
  = GetDictValues jsonPlain {| chgw := otherGateway; dictCfgs := exampleDicts |}
      "/dicts/src_asn__name" Http.newWriter
  ∧ ∃ expr : string,
      resolveDictIfNecessary SprintfStrings
        {| chgw := exampleGateway; dictCfgs := exampleDicts |} "src_asn__name"
      = Ok ("dictGet('asns', 'name', " +:+ expr +:+ ")").
Proof.
  apply (GetDictValues_reads_resolved_dict SprintfStrings jsonPlain exampleGateway
           otherGateway exampleDicts "" "dicts" "src_asn" "name"
           {| Dict.Field := "src_asn"; Dict.Dict := "asns"; Dict.Expr := "toUInt64(%s)";
              Dict.Keys := [] |} Http.newWriter);
    [reflexivity | reflexivity | discriminate | reflexivity | reflexivity].
Defined.

Lemma QueryHandler_late_csv_error_witness :
  QueryHandler SprintfStrings examplePivot failingCsv exampleFrontend requestUnresolved
    ["breakdown"; "time_start"; "time_end"] Http.newWriter
  = Some {| Http.status := Some 200; Http.body := "t?," |}.
Proof.
  apply (QueryHandler_late_csv_error SprintfStrings examplePivot failingCsv exampleFrontend
           requestUnresolved ["breakdown"; "time_start"; "time_end"] tt
           {| Http.status := Some 200; Http.body := "t?," |}
           (ExternalError "broken pipe")).
  - vm_compute. reflexivity.
  - reflexivity.
  - by eexists.
Defined.

Lemma InsertFlows_success_witness :
  Insert.InsertFlows acceptingDatabase [10; 20; 30]%nat
  = ([Insert.Begin; Insert.Prepare; Insert.Exec 10%nat; Insert.Exec 20%nat;
      Insert.Exec 30%nat; Insert.Commit; Insert.Close], None).
Proof.
  apply (proj1 (InsertFlows_success acceptingDatabase [10; 20; 30]%nat));
    reflexivity.
Defined.

Lemma InsertFlows_exec_failure_witness :
  (Insert.InsertFlows failingDatabase [10; 20; 30]%nat
   = ([Insert.Begin; Insert.Prepare; Insert.Exec 10%nat; Insert.Exec 20%nat; Insert.Close],
      Some (Wrap (ExternalError "exec") "Exec failed")))
  ∧ (Insert.Commit ∉ (Insert.InsertFlows failingDatabase [10; 20; 30]%nat).1)
  ∧ (Insert.Rollback ∉ (Insert.InsertFlows failingDatabase [10; 20; 30]%nat).1).
Proof.
  apply (InsertFlows_exec_failure failingDatabase [10; 20; 30]%nat 1 20%nat
           (ExternalError "exec")).
  - reflexivity.
  - reflexivity.
  - reflexivity.
  - reflexivity.
  - intros [|k] fl' Hk Hl; [reflexivity | lia].
Defined.
